(** * useKbdList: keyboard and pointer navigation of a list

    A shallow embedding of [src/index.tsx] (the [useKbdList] React hook) and
    the properties of its selection state machine.

    Layout of the development:
    - [JsNumber]: the values of the TypeScript type [number] that the hook
      computes with, and the operators the source applies to them
      ([+], [-], [%], [<], [>=], [===], [isNaN], [Number(...)]);
    - [Dom]: the part of the DOM the hook reads (attributes, ancestors,
      layout boxes, [document.querySelector]);
    - the hook itself: its three state cells, its event handlers, its
      three effects, and the render and effect cycle of React;
    - [Demo]: a document with a list of five items, to run the hook on;
    - the lemmas and theorems C1 to C10, then further properties of the
      same code, X1 to X19.

    What the model takes from outside the source:
    - Numbers are exact: a finite number is a rational, so the rounding of
      IEEE doubles (which shows only beyond 2^53 or with long fractions) is
      not represented, and the two zeros are one value.
    - React: a state update that gives the value the cell has causes no
      render; the effects of a render run in source order when one of
      their dependencies changed (all of them at the first render), read
      the state of that render, and their updates take effect together in
      the next render.  Handlers are those of the latest render
      ([useHotkeys] without a dependency list calls the latest callback).
    - The document is the same during the renders that one event causes;
      each event may come with a document of its own.
    - The index attribute name makes a valid selector, so that neither
      [closest] nor [querySelector] throws. *)

From Stdlib Require Import ZArith QArith Qreduction Lia List String Ascii Bool.
From Stdlib Require DecimalString DecimalPos.
Import ListNotations.

Local Open Scope Z_scope.

(* ------------------------------------------------------------------ *)
(** ** JavaScript numbers *)

Module JsNumber.

Inductive number : Type :=
| NaN
| Infinity (negative : bool)
| Fin (q : Q).

(** An integer seen as a [number]. *)
Definition ofZ (z : Z) : number := Fin (inject_Z z).

Definition isNaN (x : number) : bool :=
  match x with NaN => true | _ => false end.

(** [x === y] on numbers: [NaN] differs from everything, itself included. *)
Definition strict_eq (x y : number) : bool :=
  match x, y with
  | Fin a, Fin b => Qeq_bool a b
  | Infinity s, Infinity t => Bool.eqb s t
  | _, _ => false
  end.

(** [Object.is(x, y)], the comparison React applies to state values and to
    effect dependencies: as [===] except that [NaN] is itself. *)
Definition object_is (x y : number) : bool :=
  match x, y with
  | NaN, NaN => true
  | _, _ => strict_eq x y
  end.

(** [x < y]. *)
Definition lt (x y : number) : bool :=
  match x, y with
  | NaN, _ | _, NaN => false
  | Infinity s, Infinity t => s && negb t
  | Infinity s, Fin _ => s
  | Fin _, Infinity t => negb t
  | Fin a, Fin b => negb (Qle_bool b a)
  end.

(** [x >= y]. *)
Definition ge (x y : number) : bool :=
  match x, y with
  | NaN, _ | _, NaN => false
  | Infinity s, Infinity t => negb s || t
  | Infinity s, Fin _ => negb s
  | Fin _, Infinity t => t
  | Fin a, Fin b => Qle_bool b a
  end.

Definition neg (x : number) : number :=
  match x with
  | NaN => NaN
  | Infinity s => Infinity (negb s)
  | Fin a => Fin (Qred (Qopp a))
  end.

(** [x + y]. *)
Definition add (x y : number) : number :=
  match x, y with
  | NaN, _ | _, NaN => NaN
  | Infinity s, Infinity t => if Bool.eqb s t then Infinity s else NaN
  | Infinity s, Fin _ => Infinity s
  | Fin _, Infinity t => Infinity t
  | Fin a, Fin b => Fin (Qred (Qplus a b))
  end.

(** [x - y]. *)
Definition sub (x y : number) : number :=
  match x, y with
  | NaN, _ | _, NaN => NaN
  | Infinity s, Infinity t => if Bool.eqb s t then NaN else Infinity s
  | Infinity s, Fin _ => Infinity s
  | Fin _, Infinity t => Infinity (negb t)
  | Fin a, Fin b => Fin (Qred (Qminus a b))
  end.

(** The integer part of a rational, rounding toward zero. *)
Definition Qtrunc (a : Q) : Z := Z.quot (Qnum a) (Zpos (Qden a)).

(** [x % y]: the remainder has the sign of the dividend; it is [NaN] when
    the dividend is infinite or the divisor is zero, and the dividend when
    the divisor is infinite. *)
Definition rem (x y : number) : number :=
  match x, y with
  | NaN, _ | _, NaN => NaN
  | Infinity _, _ => NaN
  | Fin a, Infinity _ => Fin a
  | Fin a, Fin b =>
      if Qeq_bool b 0 then NaN
      else Fin (Qred (Qminus a (Qmult b (inject_Z (Qtrunc (Qdiv a b))))))
  end.

(** *** [Number(value)]

    The conversion the source applies to an attribute value, following
    the StringToNumber grammar of ECMAScript: surrounding white space is
    dropped, the empty string is 0, then either a binary, octal or
    hexadecimal integer literal without sign, or a signed decimal literal
    with optional fraction and exponent, or a signed [Infinity]; anything
    else is [NaN].  Strings are sequences of 8-bit characters here, so
    only the ASCII white space characters are recognised. *)

Definition code (c : ascii) : Z := Z.of_N (N_of_ascii c).

Definition is_white_space (c : ascii) : bool :=
  let k := code c in
  ((9 <=? k) && (k <=? 13)) || (k =? 32).

Fixpoint trim_start (cs : list ascii) : list ascii :=
  match cs with
  | c :: cs' => if is_white_space c then trim_start cs' else cs
  | [] => []
  end.

Definition trim (cs : list ascii) : list ascii :=
  rev (trim_start (rev (trim_start cs))).

Definition digit_of (radix : Z) (c : ascii) : option Z :=
  let k := code c in
  let v :=
    if (48 <=? k) && (k <=? 57) then Some (k - 48)
    else if (97 <=? k) && (k <=? 122) then Some (k - 87)
    else if (65 <=? k) && (k <=? 90) then Some (k - 55)
    else None in
  match v with
  | Some d => if d <? radix then Some d else None
  | None => None
  end.

(** Reads the longest prefix of digits: its value, its length, the rest. *)
Fixpoint digits (radix : Z) (cs : list ascii) (acc : Z) (n : nat)
  : Z * nat * list ascii :=
  match cs with
  | c :: cs' =>
      match digit_of radix c with
      | Some d => digits radix cs' (acc * radix + d) (S n)
      | None => (acc, n, cs)
      end
  | [] => (acc, n, [])
  end.

Definition sign_of (cs : list ascii) : Z * list ascii :=
  match cs with
  | c :: cs' =>
      if Ascii.eqb c "+" then (1, cs')
      else if Ascii.eqb c "-" then (-1, cs')
      else (1, cs)
  | [] => (1, [])
  end.

(** The rest of a decimal literal: nothing, or an exponent part. *)
Definition exponent_part (cs : list ascii) : option Z :=
  match cs with
  | [] => Some 0
  | c :: cs' =>
      if Ascii.eqb c "e" || Ascii.eqb c "E" then
        let '(sg, ds) := sign_of cs' in
        match digits 10 ds 0 0 with
        | (v, S _, []) => Some (sg * v)
        | _ => None
        end
      else None
  end.

Definition unsigned_decimal (cs : list ascii) : option number :=
  if String.eqb (string_of_list_ascii cs) "Infinity" then Some (Infinity false)
  else
    let '(i, ni, r1) := digits 10 cs 0 0 in
    let '(f, nf, r2) :=
      match r1 with
      | c :: r => if Ascii.eqb c "." then digits 10 r 0 0 else (0, 0%nat, r1)
      | [] => (0, 0%nat, r1)
      end in
    match (ni + nf)%nat with
    | O => None
    | S _ =>
        match exponent_part r2 with
        | Some e =>
            let scale := 10 ^ Z.of_nat nf in
            Some (Fin (Qred (inject_Z (i * scale + f) / inject_Z scale
                             * Qpower (inject_Z 10) e)))
        | None => None
        end
    end.

Definition signed_decimal (cs : list ascii) : option number :=
  let '(sg, r) := sign_of cs in
  match unsigned_decimal r with
  | Some v => Some (if sg <? 0 then neg v else v)
  | None => None
  end.

Definition non_decimal (cs : list ascii) : option number :=
  match cs with
  | z :: p :: ds =>
      if Ascii.eqb z "0" then
        let radix :=
          if Ascii.eqb p "x" || Ascii.eqb p "X" then Some 16
          else if Ascii.eqb p "o" || Ascii.eqb p "O" then Some 8
          else if Ascii.eqb p "b" || Ascii.eqb p "B" then Some 2
          else None in
        match radix with
        | Some r =>
            match digits r ds 0 0 with
            | (v, S _, []) => Some (ofZ v)
            | _ => None
            end
        | None => None
        end
      else None
  | _ => None
  end.

Definition StringToNumber (s : string) : number :=
  match trim (list_ascii_of_string s) with
  | [] => ofZ 0
  | cs =>
      match non_decimal cs with
      | Some v => v
      | None =>
          match signed_decimal cs with
          | Some v => v
          | None => NaN
          end
      end
  end.

(** [Number(v)] for [v : string | null]; [null] converts to 0. *)
Definition Number (v : option string) : number :=
  match v with
  | Some s => StringToNumber s
  | None => ofZ 0
  end.

End JsNumber.

Import JsNumber.

Local Open Scope string_scope.

(* ------------------------------------------------------------------ *)
(** ** The DOM as the hook sees it *)

Module Dom.

(** An [HTMLElement] value is a reference to a node; two references are
    the same object when they are the same node. *)
Definition HTMLElement : Type := positive.

Record Document : Type := {
  (** the attributes of a node, as name and value *)
  attributes : HTMLElement -> list (string * string);
  (** the ancestors of a node, nearest first *)
  ancestors : HTMLElement -> list HTMLElement;
  offsetTop : HTMLElement -> number;
  offsetHeight : HTMLElement -> number;
  (** [querySelector name index] is the call of [document.querySelector]
      with the selector for attribute [name] equal to the text of
      [index]: the element found, if the document has one *)
  querySelector : string -> number -> option HTMLElement
}.

Definition getAttribute (d : Document) (e : HTMLElement) (name : string)
  : option string :=
  option_map snd (find (fun kv => String.eqb (fst kv) name) (attributes d e)).

Definition hasAttribute (d : Document) (e : HTMLElement) (name : string)
  : bool :=
  match getAttribute d e name with Some _ => true | None => false end.

(** element.closest(`[${name}]`): the element itself or its nearest
    ancestor that carries the attribute. *)
Definition closest (d : Document) (e : HTMLElement) (name : string)
  : option HTMLElement :=
  find (fun x => hasAttribute d x name) (e :: ancestors d e).

Inductive ScrollBehavior : Type := auto | instant | smooth.

(** The argument of [container.scroll(...)]. *)
Record ScrollToOptions : Type := {
  top : number;
  behavior : ScrollBehavior
}.

(** One call of [scroll], with the element it was called on. *)
Record ScrollRequest : Type := {
  scrolled : HTMLElement;
  options : ScrollToOptions
}.

Record MouseEvent : Type := { target : option HTMLElement }.

Record KeyboardEvent : Type := { key : string; defaultPrevented : bool }.

Definition preventDefault (e : KeyboardEvent) : KeyboardEvent :=
  {| key := key e; defaultPrevented := true |}.

End Dom.

Import Dom.

(* ------------------------------------------------------------------ *)
(** ** The hook *)

Module Keys.
Definition ArrowUp : string := "ArrowUp".
Definition ArrowDown : string := "ArrowDown".
Definition PageUp : string := "PageUp".
Definition PageDown : string := "PageDown".
Definition Home : string := "Home".
Definition End_ : string := "End".

(** The keys registered with [useHotkeys]. *)
Definition all : list string :=
  [ArrowUp; ArrowDown; PageUp; PageDown; Home; End_].
End Keys.

(** The arguments of [useKbdList]; [options] is only handed on to
    [useHotkeys] and is left out. *)
Record Props : Type := {
  listLength : number;
  listItemIndexAttribute : string
}.

(** The three [useState] cells. *)
Record State : Type := {
  hoverIndex : number;
  activeIndex : number;
  activeElement : option HTMLElement
}.

(** What the hook reads from outside: the document and [ref.current]. *)
Record Env : Type := {
  document : Document;
  ref_current : option HTMLElement
}.

Definition initialState : State :=
  {| hoverIndex := ofZ (-1); activeIndex := ofZ 0; activeElement := None |}.

Definition setHoverIndex (i : number) (s : State) : State :=
  {| hoverIndex := i; activeIndex := activeIndex s;
     activeElement := activeElement s |}.

Definition setActiveIndex (i : number) (s : State) : State :=
  {| hoverIndex := hoverIndex s; activeIndex := i;
     activeElement := activeElement s |}.

Definition setActiveElement (e : option HTMLElement) (s : State) : State :=
  {| hoverIndex := hoverIndex s; activeIndex := activeIndex s;
     activeElement := e |}.

Definition getSelectedElement (env : Env) (p : Props) (index : number)
  : option HTMLElement :=
  if String.eqb (listItemIndexAttribute p) EmptyString then None
  else querySelector (document env) (listItemIndexAttribute p) index.

(** *** Event handlers *)

(** The value of [nextIndex] when the [switch] of [handleKeypress] is left. *)
Definition nextIndex (p : Props) (s : State) (k : string) : number :=
  let isHovering := ge (hoverIndex s) (ofZ 0) in
  if String.eqb k Keys.ArrowUp then
    if negb isHovering
    then rem (add (sub (activeIndex s) (ofZ 1)) (listLength p)) (listLength p)
    else rem (add (sub (hoverIndex s) (ofZ 1)) (listLength p)) (listLength p)
  else if String.eqb k Keys.ArrowDown then
    if negb isHovering
    then rem (add (activeIndex s) (ofZ 1)) (listLength p)
    else rem (add (hoverIndex s) (ofZ 1)) (listLength p)
  else if String.eqb k Keys.PageUp || String.eqb k Keys.Home then ofZ 0
  else if String.eqb k Keys.PageDown || String.eqb k Keys.End_ then
    sub (listLength p) (ofZ 1)
  else ofZ (-1).

Definition handleKeypress (p : Props) (s : State) (e : KeyboardEvent)
  : KeyboardEvent * State :=
  let e := preventDefault e in
  if strict_eq (listLength p) (ofZ 0) then (e, s)
  else
    let next := nextIndex p s (key e) in
    if strict_eq next (ofZ (-1)) then (e, s)
    else (e, setHoverIndex (ofZ (-1)) (setActiveIndex next s)).

(** The [element] of [handleMove]: the nearest element at or above the
    target that carries the index attribute; none when the event has no
    target. *)
Definition hitElement (env : Env) (p : Props) (e : MouseEvent)
  : option HTMLElement :=
  match target e with
  | Some t => closest (document env) t (listItemIndexAttribute p)
  | None => None
  end.

Definition handleMove (env : Env) (p : Props) (s : State) (e : MouseEvent)
  : State :=
  match hitElement env p e with
  | None => s
  | Some el =>
      let listItemIndex :=
        Number (getAttribute (document env) el (listItemIndexAttribute p)) in
      if isNaN listItemIndex || strict_eq (hoverIndex s) listItemIndex then s
      else setActiveIndex listItemIndex (setHoverIndex listItemIndex s)
  end.

Definition handleLeave (s : State) : State := setHoverIndex (ofZ (-2)) s.

(** *** Effects and the render cycle *)

(** A render: the arguments and the state the component function ran with.
    Handlers and effects created by a render see these values. *)
Record Render : Type := {
  props : Props;
  state : State
}.

Definition element_is (a b : option HTMLElement) : bool :=
  match a, b with
  | Some x, Some y => Pos.eqb x y
  | None, None => true
  | _, _ => false
  end.

(** React keeps a state cell as it is when the new value is the old one. *)
Definition state_is (a b : State) : bool :=
  object_is (hoverIndex a) (hoverIndex b)
  && object_is (activeIndex a) (activeIndex b)
  && element_is (activeElement a) (activeElement b).

(** Whether a dependency differs from its value at the previous render;
    at the first render every effect runs. *)
Definition changed {A : Type} (same : A -> A -> bool) (dep : Render -> A)
  (prev : option Render) (cur : Render) : bool :=
  match prev with
  | None => true
  | Some r => negb (same (dep r) (dep cur))
  end.

(** The third effect (lines 64-84): the scroll request, if any. *)
Definition scrollEffect (env : Env) (s : State) : list ScrollRequest :=
  match ref_current env, activeElement s with
  | Some container, Some elem =>
      if lt (activeIndex s) (ofZ 0)
         || strict_eq (activeIndex s) (hoverIndex s)
         || strict_eq (hoverIndex s) (ofZ (-2))
      then []
      else
        let height := offsetHeight (document env) elem in
        let top := offsetTop (document env) elem in
        let containerHeight := offsetHeight (document env) container in
        [ {| scrolled := container;
             options := {| Dom.top := add (sub top containerHeight) height;
                           behavior := smooth |} |} ]
  | _, _ => []
  end.

(** The effects of one render, in the order of the source.  Each runs when
    one of its dependencies changed, reads the values of this render, and
    queues its state updates; the result is the scroll requests made and
    the state after the queued updates. *)
Definition runEffects (env : Env) (prev : option Render) (cur : Render)
  : list ScrollRequest * State :=
  let p := props cur in
  let s := state cur in
  let lengthChanged := changed object_is (fun r => listLength (props r)) prev cur in
  let activeIndexChanged :=
    changed object_is (fun r => activeIndex (state r)) prev cur in
  let hoverIndexChanged :=
    changed object_is (fun r => hoverIndex (state r)) prev cur in
  let activeElementChanged :=
    changed element_is (fun r => activeElement (state r)) prev cur in
  let getSelectedElementChanged :=
    changed String.eqb (fun r => listItemIndexAttribute (props r)) prev cur in
  (* useEffect(() => setActiveIndex(0), [listLength]) *)
  let s1 := if lengthChanged then setActiveIndex (ofZ 0) s else s in
  (* useEffect(..., [activeIndex, listLength, getSelectedElement]) *)
  let s2 :=
    if activeIndexChanged || lengthChanged || getSelectedElementChanged then
      match getSelectedElement env p (activeIndex s) with
      | None => s1
      | Some elem => setActiveElement (Some elem) s1
      end
    else s1 in
  (* useEffect(..., [activeIndex, hoverIndex, activeElement]) *)
  let requests :=
    if activeIndexChanged || hoverIndexChanged || activeElementChanged
    then scrollEffect env s else [] in
  (requests, s2).

(** Renders and runs effects until no effect changes the state; [None]
    when [fuel] renders were not enough.  When the queued updates give the
    state of this render again, React renders no more. *)
Fixpoint settle (fuel : nat) (env : Env) (prev : option Render) (cur : Render)
  : option (list ScrollRequest * Render) :=
  match fuel with
  | O => None
  | S fuel' =>
      let '(requests, s') := runEffects env prev cur in
      let next := {| props := props cur; state := s' |} in
      if state_is s' (state cur) then Some (requests, next)
      else
        match settle fuel' env (Some cur) next with
        | Some (later, r) => Some ((requests ++ later)%list, r)
        | None => None
        end
  end.

(** Three renders always suffice (lemma [settle_terminates]). *)
Definition renders : nat := 3.

(** Mounting the component. *)
Definition mount (env : Env) (p : Props)
  : option (list ScrollRequest * Render) :=
  settle renders env None {| props := p; state := initialState |}.

(** What can happen to a mounted component. *)
Inductive Event : Type :=
| KeyPress (e : KeyboardEvent)
| MouseMove (e : MouseEvent)
| MouseLeave
| SetActiveIndex (i : number)
| NewProps (p : Props).

(** The render an event asks for. *)
Definition dispatch (env : Env) (r : Render) (ev : Event) : Render :=
  match ev with
  | KeyPress e =>
      {| props := props r; state := snd (handleKeypress (props r) (state r) e) |}
  | MouseMove e =>
      {| props := props r; state := handleMove env (props r) (state r) e |}
  | MouseLeave => {| props := props r; state := handleLeave (state r) |}
  | SetActiveIndex i =>
      {| props := props r; state := setActiveIndex i (state r) |}
  | NewProps p => {| props := p; state := state r |}
  end.

(** An event, then the renders and effects it causes. *)
Definition step (env : Env) (r : Render) (ev : Event)
  : option (list ScrollRequest * Render) :=
  settle renders env (Some r) (dispatch env r ev).

(** A sequence of events, each with the document it happens in; the scroll
    requests are collected in order. *)
Fixpoint run (r : Render) (evs : list (Env * Event))
  : option (list ScrollRequest * Render) :=
  match evs with
  | [] => Some ([], r)
  | (env, ev) :: rest =>
      match step env r ev with
      | Some (requests, r') =>
          match run r' rest with
          | Some (later, r'') => Some ((requests ++ later)%list, r'')
          | None => None
          end
      | None => None
      end
  end.

(** Mounting, then a sequence of events. *)
Definition session (env : Env) (p : Props) (evs : list (Env * Event))
  : option (list ScrollRequest * Render) :=
  match mount env p with
  | Some (requests, r) =>
      match run r evs with
      | Some (later, r') => Some ((requests ++ later)%list, r')
      | None => None
      end
  | None => None
  end.

(** The index the next Up or Down key starts from (the base index of the
    specification): the hovered one when there is one. *)
Definition baseIndex (s : State) : number :=
  if ge (hoverIndex s) (ofZ 0) then hoverIndex s else activeIndex s.

(** [i] is an index into a list of [n] items. *)
Definition is_index (n : Z) (i : number) : Prop :=
  exists z, i = ofZ z /\ (0 <= z < n)%Z.

(** The state that the keyboard and the pointer keep: [hoverIndex] is an
    integer and [activeIndex] an index into the list. *)
Definition navigable (n : Z) (s : State) : Prop :=
  (exists h, hoverIndex s = ofZ h) /\ is_index n (activeIndex s).

(** The events that come from the keyboard and from the pointer, where the
    index that [handleMove] accepts, if it accepts one, is an index into a
    list of [n] items. *)
Definition navigation (n : Z) (p : Props) (x : Env * Event) : Prop :=
  match snd x with
  | KeyPress _ | MouseLeave => True
  | MouseMove e =>
      match hitElement (fst x) p e with
      | Some el =>
          let v := Number (getAttribute (document (fst x)) el
                             (listItemIndexAttribute p)) in
          isNaN v = true \/ is_index n v
      | None => True
      end
  | SetActiveIndex _ | NewProps _ => False
  end.

(* ------------------------------------------------------------------ *)
(** ** A concrete document

    A list of five items in a scrollable container, used to run the hook. *)

Module Demo.

Definition ul : HTMLElement := 10%positive.

(** Nodes 1 to 5 are the items, with [data-index] 0 to 4; node 6 is a
    label inside the third item; nodes 7 to 9 and 11 to 13 carry other
    texts in the attribute. *)
Definition demoAttributes (e : HTMLElement) : list (string * string) :=
  match e with
  | 1 => [("class", "item"); ("data-index", "0")]
  | 2 => [("class", "item"); ("data-index", "1")]
  | 3 => [("class", "item"); ("data-index", "2")]
  | 4 => [("class", "item"); ("data-index", "3")]
  | 5 => [("class", "item"); ("data-index", "4")]
  | 6 => [("class", "label")]
  | 7 => [("data-index", ".5")]
  | 8 => [("data-index", "7")]
  | 9 => [("data-index", "Infinity")]
  | 11 => [("data-index", "first")]
  | 12 => [("data-index", EmptyString)]
  | 13 => [("data-index", "-5")]
  | _ => []
  end%positive.

(** The nodes, in document order, whose attribute text is the text of the
    number it stands for: a selector made from a number can match no
    other ([.5] and the empty text are not the texts of 0.5 and 0). *)
Definition numbered : list HTMLElement := [1; 2; 3; 4; 5; 8; 9; 13]%positive.

Definition demoDocument : Document := {|
  attributes := demoAttributes;
  ancestors := fun e =>
    match e with
    | 6 => [3; ul]
    | 10 => []
    | _ => [ul]
    end%positive;
  offsetTop := fun e => ofZ (20 * (Z.pos e - 1));
  offsetHeight := fun e => if Pos.eqb e ul then ofZ 60 else ofZ 20;
  querySelector := fun name index =>
    find (fun e =>
            match find (fun kv => String.eqb (fst kv) name) (demoAttributes e)
            with
            | Some kv => strict_eq index (StringToNumber (snd kv))
            | None => false
            end)
         numbered
|}.

Definition env : Env :=
  {| document := demoDocument; ref_current := Some ul |}.

Definition five : Props :=
  {| listLength := ofZ 5; listItemIndexAttribute := "data-index" |}.

Definition press (k : string) : Env * Event :=
  (env, KeyPress {| key := k; defaultPrevented := false |}).

Definition moveOver (e : HTMLElement) : Env * Event :=
  (env, MouseMove {| target := Some e |}).

Definition leave : Env * Event := (env, MouseLeave).

(** The scenario of the specification: Down five times, the pointer over
    the label of the third item, then Up. *)
Definition scenario : list (Env * Event) :=
  [press Keys.ArrowDown; press Keys.ArrowDown; press Keys.ArrowDown;
   press Keys.ArrowDown; press Keys.ArrowDown; moveOver 6%positive;
   press Keys.ArrowUp].

(** Mounts the list of five and runs the events. *)
Definition play (evs : list (Env * Event))
  : option (list ScrollRequest * Render) :=
  session env five evs.

End Demo.

(* ------------------------------------------------------------------ *)
(** ** Notions used by the further properties *)

(** The request that the scroll effect makes for the element [elem] in the
    container [container]. *)
Definition requestFor (env : Env) (container elem : HTMLElement)
  : ScrollRequest :=
  {| scrolled := container;
     options :=
       {| top := add (sub (offsetTop (document env) elem)
                          (offsetHeight (document env) container))
                     (offsetHeight (document env) elem);
          behavior := smooth |} |}.




(** A key press, seen as an event. *)
Definition pressed (k : string) : Event :=
  KeyPress {| key := k; defaultPrevented := false |}.


(** The events that come from the user of the hook or from the keyboard
    and the pointer leaving: no pointer move and no new arguments. *)
Definition withoutPointerMove (x : Env * Event) : Prop :=
  match snd x with
  | MouseMove _ | NewProps _ => False
  | KeyPress _ | MouseLeave | SetActiveIndex _ => True
  end.

(* ------------------------------------------------------------------ *)
(** ** Arithmetic of integral numbers *)

Local Open Scope Z_scope.

Section Integral.

Lemma Qred_inject_Z (z : Z) : Qred (inject_Z z) = inject_Z z.
Proof.
  unfold Qred, inject_Z.
  generalize (Z.ggcd_gcd z 1) (Z.ggcd_correct_divisors z 1).
  destruct (Z.ggcd z 1) as [g [a b]]; simpl.
  rewrite Z.gcd_1_r. intros -> [Ha Hb].
  rewrite Z.mul_1_l in Ha, Hb. subst a b. reflexivity.
Qed.

Lemma Qred_integral (q : Q) (z : Z) : q == inject_Z z -> Qred q = inject_Z z.
Proof.
  intros H. rewrite (Qred_complete _ _ H). apply Qred_inject_Z.
Qed.

Lemma add_ofZ (a b : Z) : add (ofZ a) (ofZ b) = ofZ (a + b).
Proof.
  unfold add, ofZ. f_equal. apply Qred_integral.
  rewrite inject_Z_plus. reflexivity.
Qed.

Lemma sub_ofZ (a b : Z) : sub (ofZ a) (ofZ b) = ofZ (a - b).
Proof.
  unfold sub, ofZ. f_equal. apply Qred_integral.
  unfold Z.sub. rewrite inject_Z_plus, inject_Z_opp. reflexivity.
Qed.

Lemma strict_eq_ofZ (a b : Z) : strict_eq (ofZ a) (ofZ b) = (a =? b).
Proof.
  unfold strict_eq, ofZ, Qeq_bool, inject_Z; simpl.
  rewrite !Z.mul_1_r. reflexivity.
Qed.

Lemma ge_ofZ (a b : Z) : ge (ofZ a) (ofZ b) = (b <=? a).
Proof.
  unfold ge, ofZ, Qle_bool, inject_Z; simpl.
  rewrite !Z.mul_1_r. reflexivity.
Qed.

Lemma Qtrunc_div (a b : Z) :
  b <> 0 -> Qtrunc (inject_Z a / inject_Z b) = Z.quot a b.
Proof.
  intros Hb. unfold Qtrunc, Qdiv, Qinv, Qmult, inject_Z; simpl.
  destruct b as [|pb|pb]; [congruence| |]; simpl.
  - rewrite Z.mul_1_r. reflexivity.
  - rewrite <- (Z.quot_opp_opp a (Z.neg pb)) by discriminate.
    simpl. f_equal. lia.
Qed.

Lemma rem_ofZ (a b : Z) :
  b <> 0 -> rem (ofZ a) (ofZ b) = ofZ (Z.rem a b).
Proof.
  intros Hb. unfold rem, ofZ.
  assert (Hz : Qeq_bool (inject_Z b) 0 = false).
  { unfold Qeq_bool, inject_Z; simpl. rewrite Z.mul_1_r.
    apply Z.eqb_neq. exact Hb. }
  rewrite Hz. f_equal. apply Qred_integral.
  rewrite Qtrunc_div by exact Hb.
  rewrite <- inject_Z_mult.
  unfold Qminus. rewrite <- inject_Z_opp, <- inject_Z_plus.
  replace (a + - (b * Z.quot a b)) with (Z.rem a b); [reflexivity|].
  generalize (Z.quot_rem' a b). lia.
Qed.

Lemma object_is_refl (x : number) : object_is x x = true.
Proof.
  destruct x as [|s|q]; simpl; auto.
  - apply Bool.eqb_reflx.
  - apply Qeq_bool_refl.
Qed.

End Integral.


(* ------------------------------------------------------------------ *)
(** ** The render cycle *)

Section RenderCycle.

Variable env : Env.

Lemma element_is_refl (e : option HTMLElement) : element_is e e = true.
Proof. destruct e; simpl; auto using Pos.eqb_refl. Qed.

Lemma state_is_refl (s : State) : state_is s s = true.
Proof.
  unfold state_is. now rewrite !object_is_refl, element_is_refl.
Qed.

(** No effect writes [hoverIndex]. *)
Lemma runEffects_hoverIndex (prev : option Render) (cur : Render) :
  hoverIndex (snd (runEffects env prev cur)) = hoverIndex (state cur).
Proof.
  unfold runEffects; simpl.
  repeat match goal with
         | |- context [if ?b then _ else _] => destruct b
         | |- context [match ?o with Some _ => _ | None => _ end] => destruct o
         end; reflexivity.
Qed.

(** Only the first effect writes [activeIndex], and it runs when the
    length changed. *)
Lemma runEffects_activeIndex (prev : option Render) (cur : Render) :
  activeIndex (snd (runEffects env prev cur)) =
    if changed object_is (fun r => listLength (props r)) prev cur
    then ofZ 0 else activeIndex (state cur).
Proof.
  unfold runEffects; simpl.
  repeat match goal with
         | |- context [if ?b then _ else _] => destruct b
         | |- context [match ?o with Some _ => _ | None => _ end] => destruct o
         end; reflexivity.
Qed.

(** Only the second effect writes [activeElement], with what
    [getSelectedElement] found. *)
Lemma runEffects_activeElement (prev : option Render) (cur : Render) :
  activeElement (snd (runEffects env prev cur)) =
    if changed object_is (fun r => activeIndex (state r)) prev cur
       || changed object_is (fun r => listLength (props r)) prev cur
       || changed String.eqb (fun r => listItemIndexAttribute (props r))
            prev cur
    then
      match getSelectedElement env (props cur) (activeIndex (state cur)) with
      | Some elem => Some elem
      | None => activeElement (state cur)
      end
    else activeElement (state cur).
Proof.
  unfold runEffects; simpl.
  repeat match goal with
         | |- context [if ?b then _ else _] => destruct b
         | |- context [match ?o with Some _ => _ | None => _ end] => destruct o
         end; reflexivity.
Qed.

Lemma unchanged_props (r cur : Render) :
  props r = props cur ->
  changed object_is (fun x => listLength (props x)) (Some r) cur = false
  /\ changed String.eqb (fun x => listItemIndexAttribute (props x))
       (Some r) cur = false.
Proof.
  intros E; unfold changed; rewrite E.
  now rewrite object_is_refl, String.eqb_refl.
Qed.

Lemma state_ext (a b : State) :
  hoverIndex a = hoverIndex b -> activeIndex a = activeIndex b ->
  activeElement a = activeElement b -> a = b.
Proof. destruct a, b; simpl; intros; subst; reflexivity. Qed.

(** A render whose arguments and [activeIndex] are those of the render
    before it changes no state. *)
Lemma runEffects_quiet (r cur : Render) :
  props r = props cur ->
  object_is (activeIndex (state r)) (activeIndex (state cur)) = true ->
  snd (runEffects env (Some r) cur) = state cur.
Proof.
  intros Ep Ea. destruct (unchanged_props r cur Ep) as [Hl Hg].
  apply state_ext.
  - apply runEffects_hoverIndex.
  - rewrite runEffects_activeIndex, Hl. reflexivity.
  - rewrite runEffects_activeElement, Hl, Hg.
    unfold changed at 1. rewrite Ea. reflexivity.
Qed.

Lemma settle_quiet (fuel : nat) (r cur : Render) :
  props r = props cur ->
  object_is (activeIndex (state r)) (activeIndex (state cur)) = true ->
  settle (S fuel) env (Some r) cur =
    Some (fst (runEffects env (Some r) cur), cur).
Proof.
  intros Ep Ea. cbn [settle].
  generalize (runEffects_quiet r cur Ep Ea).
  destruct (runEffects env (Some r) cur) as [reqs s']; cbn [fst snd].
  intros ->. rewrite state_is_refl. destruct cur; reflexivity.
Qed.

(** After a render with unchanged arguments, one more render is quiet. *)
Lemma settle_same_props (fuel : nat) (r cur : Render) :
  props r = props cur ->
  exists reqs s',
    settle (S (S fuel)) env (Some r) cur =
      Some (reqs, {| props := props cur; state := s' |})
    /\ hoverIndex s' = hoverIndex (state cur)
    /\ activeIndex s' = activeIndex (state cur)
    /\ (activeElement s' = activeElement (state cur)
        \/ activeElement s' =
             getSelectedElement env (props cur) (activeIndex (state cur))).
Proof.
  intros Ep. destruct (unchanged_props r cur Ep) as [Hl Hg].
  assert (Hh := runEffects_hoverIndex (Some r) cur).
  assert (Ha := runEffects_activeIndex (Some r) cur).
  assert (He := runEffects_activeElement (Some r) cur).
  rewrite Hl in Ha. rewrite Hl, Hg in He.
  change (settle (S (S fuel)) env (Some r) cur) with
    (let '(requests, s') := runEffects env (Some r) cur in
     let next := {| props := props cur; state := s' |} in
     if state_is s' (state cur) then Some (requests, next)
     else
       match settle (S fuel) env (Some cur) next with
       | Some (later, r) => Some ((requests ++ later)%list, r)
       | None => None
       end).
  destruct (runEffects env (Some r) cur) as [reqs s1]; simpl in Hh, Ha, He.
  assert (Hel : activeElement s1 = activeElement (state cur)
                \/ activeElement s1 =
                     getSelectedElement env (props cur)
                       (activeIndex (state cur))).
  { rewrite He.
    destruct (getSelectedElement env (props cur) (activeIndex (state cur)));
      destruct (object_is (activeIndex (state r)) (activeIndex (state cur)));
      simpl; auto. }
  cbv zeta. destruct (state_is s1 (state cur)).
  - exists reqs, s1. auto.
  - rewrite (settle_quiet fuel cur {| props := props cur; state := s1 |});
      [ | reflexivity | simpl; rewrite Ha; apply object_is_refl ].
    eexists _, s1. split; [reflexivity | auto].
Qed.

(** The render cycle always comes to rest within three renders; it keeps
    [hoverIndex], and keeps [activeIndex] unless the length changed. *)
Lemma settle_terminates (prev : option Render) (cur : Render) :
  exists reqs s',
    settle renders env prev cur =
      Some (reqs, {| props := props cur; state := s' |})
    /\ hoverIndex s' = hoverIndex (state cur)
    /\ activeIndex s' =
         if changed object_is (fun r => listLength (props r)) prev cur
         then ofZ 0 else activeIndex (state cur).
Proof.
  unfold renders.
  change (settle 3 env prev cur) with
    (let '(requests, s') := runEffects env prev cur in
     let next := {| props := props cur; state := s' |} in
     if state_is s' (state cur) then Some (requests, next)
     else
       match settle 2 env (Some cur) next with
       | Some (later, r) => Some ((requests ++ later)%list, r)
       | None => None
       end).
  assert (Hh := runEffects_hoverIndex prev cur).
  assert (Ha := runEffects_activeIndex prev cur).
  destruct (runEffects env prev cur) as [reqs s1]; simpl in Hh, Ha. cbv zeta.
  destruct (state_is s1 (state cur)).
  - exists reqs, s1. auto.
  - destruct (settle_same_props 0 cur {| props := props cur; state := s1 |}
                eq_refl) as (reqs' & s2 & E & Hh2 & Ha2 & _).
    rewrite E. simpl. eexists _, s2. split; [reflexivity|].
    simpl in Hh2, Ha2. split; congruence.
Qed.

(** An event that leaves the arguments alone: the state comes to rest
    with the indices the handler wrote. *)
Lemma settle_after_handler (r : Render) (s1 : State) :
  exists reqs s',
    settle renders env (Some r) {| props := props r; state := s1 |} =
      Some (reqs, {| props := props r; state := s' |})
    /\ hoverIndex s' = hoverIndex s1
    /\ activeIndex s' = activeIndex s1
    /\ (activeElement s' = activeElement s1
        \/ activeElement s' = getSelectedElement env (props r) (activeIndex s1)).
Proof.
  exact (settle_same_props 1 r {| props := props r; state := s1 |} eq_refl).
Qed.

End RenderCycle.

(* ------------------------------------------------------------------ *)
(** ** Keyboard navigation *)

Section Keyboard.

Variables (p : Props) (s : State).

Lemma nextIndex_ArrowUp :
  nextIndex p s Keys.ArrowUp =
    rem (add (sub (baseIndex s) (ofZ 1)) (listLength p)) (listLength p).
Proof.
  unfold nextIndex, baseIndex.
  change (String.eqb Keys.ArrowUp Keys.ArrowUp) with true. cbv iota.
  destruct (ge (hoverIndex s) (ofZ 0)); reflexivity.
Qed.

Lemma nextIndex_ArrowDown :
  nextIndex p s Keys.ArrowDown =
    rem (add (baseIndex s) (ofZ 1)) (listLength p).
Proof.
  unfold nextIndex, baseIndex.
  change (String.eqb Keys.ArrowDown Keys.ArrowUp) with false.
  change (String.eqb Keys.ArrowDown Keys.ArrowDown) with true. cbv iota.
  destruct (ge (hoverIndex s) (ofZ 0)); reflexivity.
Qed.

(** What [handleKeypress] does once [nextIndex] is known. *)
Lemma handleKeypress_moves (e : KeyboardEvent) :
  strict_eq (listLength p) (ofZ 0) = false ->
  strict_eq (nextIndex p s (key e)) (ofZ (-1)) = false ->
  handleKeypress p s e =
    (preventDefault e,
     {| hoverIndex := ofZ (-1); activeIndex := nextIndex p s (key e);
        activeElement := activeElement s |}).
Proof.
  intros Hlen Hnext. unfold handleKeypress.
  rewrite Hlen. cbn [preventDefault key]. rewrite Hnext. reflexivity.
Qed.

Lemma handleKeypress_stays (e : KeyboardEvent) :
  strict_eq (nextIndex p s (key e)) (ofZ (-1)) = true ->
  handleKeypress p s e = (preventDefault e, s).
Proof.
  intros Hnext. unfold handleKeypress.
  cbn [preventDefault key]. rewrite Hnext.
  destruct (strict_eq (listLength p) (ofZ 0)); reflexivity.
Qed.

End Keyboard.

Lemma length_not_zero (n : Z) : 0 < n -> strict_eq (ofZ n) (ofZ 0) = false.
Proof. intros H. rewrite strict_eq_ofZ. apply Z.eqb_neq. lia. Qed.

Lemma baseIndex_hover (s : State) (h : Z) :
  hoverIndex s = ofZ h -> 0 <= h -> baseIndex s = ofZ h.
Proof.
  intros E H. unfold baseIndex. rewrite E, ge_ofZ.
  destruct (Z.leb_spec 0 h); [reflexivity | lia].
Qed.

Lemma baseIndex_active (s : State) (h : Z) :
  hoverIndex s = ofZ h -> h < 0 -> baseIndex s = activeIndex s.
Proof.
  intros E H. unfold baseIndex. rewrite E, ge_ofZ.
  destruct (Z.leb_spec 0 h); [lia | reflexivity].
Qed.

(** Up and Down from an integral base. *)
Lemma up_from (p : Props) (s : State) (n b : Z) :
  listLength p = ofZ n -> 0 < n -> 0 <= b -> baseIndex s = ofZ b ->
  nextIndex p s Keys.ArrowUp = ofZ ((b - 1 + n) mod n).
Proof.
  intros Hn Hpos Hb Hbase.
  rewrite nextIndex_ArrowUp, Hbase, Hn, sub_ofZ, add_ofZ, rem_ofZ by lia.
  rewrite Z.rem_mod_nonneg by lia. reflexivity.
Qed.

Lemma down_from (p : Props) (s : State) (n b : Z) :
  listLength p = ofZ n -> 0 < n -> 0 <= b -> baseIndex s = ofZ b ->
  nextIndex p s Keys.ArrowDown = ofZ ((b + 1) mod n).
Proof.
  intros Hn Hpos Hb Hbase.
  rewrite nextIndex_ArrowDown, Hbase, Hn, add_ofZ, rem_ofZ by lia.
  rewrite Z.rem_mod_nonneg by lia. reflexivity.
Qed.

Lemma scrollEffect_left (env : Env) (s : State) :
  strict_eq (hoverIndex s) (ofZ (-2)) = true -> scrollEffect env s = [].
Proof.
  intros H. unfold scrollEffect. rewrite H.
  destruct (ref_current env), (activeElement s); try reflexivity.
  now rewrite !orb_true_r.
Qed.

(** A render that repeats the one before it runs no effect. *)
Lemma runEffects_idle (env : Env) (r : Render) :
  runEffects env (Some r) r = ([], state r).
Proof.
  unfold runEffects, changed.
  now rewrite !object_is_refl, String.eqb_refl, element_is_refl.
Qed.

Lemma step_idle (env : Env) (r : Render) (ev : Event) :
  dispatch env r ev = r -> step env r ev = Some ([], r).
Proof.
  intros E. unfold step, renders. rewrite E.
  rewrite settle_quiet by (reflexivity || apply object_is_refl).
  now rewrite runEffects_idle.
Qed.

(* ------------------------------------------------------------------ *)
(** ** Properties of the hook *)

Lemma step_leave (env : Env) (r : Render) :
  step env r MouseLeave =
    Some ([], {| props := props r; state := handleLeave (state r) |}).
Proof.
  unfold step, renders. cbn [dispatch].
  rewrite settle_quiet by (reflexivity || apply object_is_refl).
  do 2 f_equal. unfold runEffects. cbn [fst state].
  rewrite scrollEffect_left by reflexivity.
  now destruct (_ || _).
Qed.

(** C10.  [handleLeave] writes -2 to [hoverIndex] and nothing else, whatever
    the state before it (a pointer that was over no item included); the
    render it causes requests no scroll and changes no state, so
    [activeIndex] and [activeElement] are as before. *)
Theorem handleLeave_frame (env : Env) (r : Render) :
  handleLeave (state r) =
    {| hoverIndex := ofZ (-2);
       activeIndex := activeIndex (state r);
       activeElement := activeElement (state r) |}
  /\ step env r MouseLeave =
       Some ([], {| props := props r; state := handleLeave (state r) |}).
Proof.
  split; [reflexivity | apply step_leave].
Qed.

(** C6.  With a list of length 0 a keyboard event changes nothing, for every
    key and every state: the handler marks the event as handled and
    returns, no render follows and no scroll is requested. *)
Theorem empty_list_ignores_keys (env : Env) (r : Render) (e : KeyboardEvent) :
  listLength (props r) = ofZ 0 ->
  handleKeypress (props r) (state r) e = (preventDefault e, state r)
  /\ step env r (KeyPress e) = Some ([], r).
Proof.
  intros H.
  assert (E : handleKeypress (props r) (state r) e = (preventDefault e, state r)).
  { unfold handleKeypress. rewrite H. reflexivity. }
  split; [exact E|].
  apply step_idle. cbn [dispatch]. rewrite E. destruct r; reflexivity.
Qed.

Lemma empty_list_ignores_keys_witness :
  let r := {| props := {| listLength := ofZ 0;
                          listItemIndexAttribute := "data-index" |};
              state := initialState |} in
  let e := {| key := Keys.ArrowDown; defaultPrevented := false |} in
  handleKeypress (props r) (state r) e = (preventDefault e, state r)
  /\ step Demo.env r (KeyPress e) = Some ([], r).
Proof.
  exact (empty_list_ignores_keys Demo.env
           {| props := {| listLength := ofZ 0;
                          listItemIndexAttribute := "data-index" |};
              state := initialState |}
           {| key := Keys.ArrowDown; defaultPrevented := false |}
           eq_refl).
Defined.

(** C3.  With a list of length n > 0, Up and Down are computed from the
    base index, which is [hoverIndex] when [hoverIndex >= 0] and
    [activeIndex] otherwise, so also when [hoverIndex] is -2; and whenever
    a key produces an index (a [nextIndex] other than -1), the handler
    sets [activeIndex] to it and [hoverIndex] to -1, and the state comes to
    rest with these two values. *)
Theorem keyboard_transition (env : Env) (r : Render) (n : Z) :
  listLength (props r) = ofZ n -> 0 < n ->
  let p := props r in
  let s := state r in
  nextIndex p s Keys.ArrowUp =
    rem (add (sub (baseIndex s) (ofZ 1)) (listLength p)) (listLength p)
  /\ nextIndex p s Keys.ArrowDown =
       rem (add (baseIndex s) (ofZ 1)) (listLength p)
  /\ baseIndex s =
       (if ge (hoverIndex s) (ofZ 0) then hoverIndex s else activeIndex s)
  /\ (hoverIndex s = ofZ (-2) -> baseIndex s = activeIndex s)
  /\ forall e : KeyboardEvent,
       strict_eq (nextIndex p s (key e)) (ofZ (-1)) = false ->
       snd (handleKeypress p s e) =
         {| hoverIndex := ofZ (-1); activeIndex := nextIndex p s (key e);
            activeElement := activeElement s |}
       /\ exists reqs s',
            step env r (KeyPress e) =
              Some (reqs, {| props := p; state := s' |})
            /\ activeIndex s' = nextIndex p s (key e)
            /\ hoverIndex s' = ofZ (-1).
Proof.
  intros Hn Hpos p s.
  split; [apply nextIndex_ArrowUp|].
  split; [apply nextIndex_ArrowDown|].
  split; [reflexivity|].
  split; [intros E; apply (baseIndex_active s (-2) E); lia|].
  intros e Hnext.
  assert (Hlen : strict_eq (listLength p) (ofZ 0) = false).
  { subst p. rewrite Hn. apply length_not_zero, Hpos. }
  assert (E := handleKeypress_moves p s e Hlen Hnext).
  split; [rewrite E; reflexivity|].
  unfold step. cbn [dispatch]. fold p s. rewrite E. cbn [snd].
  destruct (settle_after_handler env r
              {| hoverIndex := ofZ (-1); activeIndex := nextIndex p s (key e);
                 activeElement := activeElement s |})
    as (reqs & s' & Hs & Hh & Ha & _).
  exists reqs, s'. auto.
Qed.

Lemma keyboard_transition_witness :
  let hovering :=
    {| props := Demo.five;
       state := {| hoverIndex := ofZ 2; activeIndex := ofZ 2;
                   activeElement := Some 3%positive |} |} in
  let up := {| key := Keys.ArrowUp; defaultPrevented := false |} in
  exists reqs s',
    step Demo.env hovering (KeyPress up) =
      Some (reqs, {| props := Demo.five; state := s' |})
    /\ activeIndex s' = ofZ 1
    /\ hoverIndex s' = ofZ (-1).
Proof.
  intros hovering up.
  destruct (keyboard_transition Demo.env hovering 5 eq_refl eq_refl)
    as (_ & _ & _ & _ & H).
  destruct (H up eq_refl) as (_ & reqs & s' & Hstep & Ha & Hh).
  exists reqs, s'. repeat split; assumption.
Defined.

(** C4.  With a list of length n > 0 and a base index b in [0, n), the Up
    key yields (b - 1 + n) mod n and the Down key yields (b + 1) mod n, as
    the value of [nextIndex] and as the [activeIndex] the handler sets; Up
    from 0 yields n - 1 and Down from n - 1 yields 0. *)
Theorem up_down_wraparound (p : Props) (s : State) (n b : Z) :
  listLength p = ofZ n -> 0 < n -> 0 <= b < n -> baseIndex s = ofZ b ->
  let up := {| key := Keys.ArrowUp; defaultPrevented := false |} in
  let down := {| key := Keys.ArrowDown; defaultPrevented := false |} in
  nextIndex p s Keys.ArrowUp = ofZ ((b - 1 + n) mod n)
  /\ nextIndex p s Keys.ArrowDown = ofZ ((b + 1) mod n)
  /\ activeIndex (snd (handleKeypress p s up)) = ofZ ((b - 1 + n) mod n)
  /\ activeIndex (snd (handleKeypress p s down)) = ofZ ((b + 1) mod n)
  /\ (b = 0 -> nextIndex p s Keys.ArrowUp = ofZ (n - 1))
  /\ (b = n - 1 -> nextIndex p s Keys.ArrowDown = ofZ 0).
Proof.
  intros Hn Hpos Hb Hbase up down.
  assert (Hup := up_from p s n b Hn Hpos (proj1 Hb) Hbase).
  assert (Hdown := down_from p s n b Hn Hpos (proj1 Hb) Hbase).
  assert (Hlen : strict_eq (listLength p) (ofZ 0) = false).
  { rewrite Hn. apply length_not_zero, Hpos. }
  assert (Ru : 0 <= (b - 1 + n) mod n < n) by (apply Z.mod_pos_bound; lia).
  assert (Rd : 0 <= (b + 1) mod n < n) by (apply Z.mod_pos_bound; lia).
  repeat split; try assumption.
  - rewrite handleKeypress_moves; [exact Hup | exact Hlen |].
    cbn [key up]. rewrite Hup, strict_eq_ofZ. apply Z.eqb_neq. lia.
  - rewrite handleKeypress_moves; [exact Hdown | exact Hlen |].
    cbn [key down]. rewrite Hdown, strict_eq_ofZ. apply Z.eqb_neq. lia.
  - intros ->. rewrite Hup. f_equal.
    replace (0 - 1 + n) with (n - 1) by lia. apply Z.mod_small. lia.
  - intros ->. rewrite Hdown. f_equal.
    replace (n - 1 + 1) with n by lia. apply Z.mod_same. lia.
Qed.

Lemma up_down_wraparound_witness :
  let p := Demo.five in
  let first := {| hoverIndex := ofZ (-1); activeIndex := ofZ 0;
                  activeElement := Some 1%positive |} in
  let last := {| hoverIndex := ofZ 4; activeIndex := ofZ 4;
                 activeElement := Some 5%positive |} in
  nextIndex p first Keys.ArrowUp = ofZ 4
  /\ nextIndex p last Keys.ArrowDown = ofZ 0.
Proof.
  intros p first last. split.
  - exact (proj1 (proj2 (proj2 (proj2 (proj2
             (up_down_wraparound p first 5 0 eq_refl eq_refl
                (conj (Z.le_refl 0) eq_refl) eq_refl))))) eq_refl).
  - exact (proj2 (proj2 (proj2 (proj2 (proj2
             (up_down_wraparound p last 5 4 eq_refl eq_refl
                (conj (Zle_0_pos 4) eq_refl) eq_refl))))) eq_refl).
Defined.

(* ------------------------------------------------------------------ *)
(** ** Pointer tracking *)

Lemma closest_none (d : Document) (t : HTMLElement) (name : string) :
  Forall (fun x => getAttribute d x name = None) (t :: ancestors d t) ->
  closest d t name = None.
Proof.
  unfold closest. induction 1 as [|x l Hx _ IH]; [reflexivity|].
  cbn [find]. unfold hasAttribute at 1. rewrite Hx. exact IH.
Qed.

Lemma closest_some (d : Document) (t el : HTMLElement) (name : string) :
  closest d t name = Some el ->
  In el (t :: ancestors d t) /\ exists v, getAttribute d el name = Some v.
Proof.
  unfold closest. intros H. apply find_some in H. destruct H as [Hin Hhas].
  split; [exact Hin|].
  unfold hasAttribute in Hhas.
  destruct (getAttribute d el name) as [v|]; [eauto | discriminate].
Qed.

(** The element [handleMove] reads from carries the attribute, so
    [getAttribute] gives a text there and [Number] is applied to a string. *)
Lemma hitElement_attribute (env : Env) (p : Props) (e : MouseEvent)
  (el : HTMLElement) :
  hitElement env p e = Some el ->
  exists v,
    getAttribute (document env) el (listItemIndexAttribute p) = Some v.
Proof.
  unfold hitElement. destruct (target e) as [t|]; [|discriminate].
  intros H. apply closest_some in H. tauto.
Qed.

(** C5, as amended.  [handleMove] leaves the state as it is when the event
    has no target or neither the target nor an ancestor carries the index
    attribute, when [Number] of the attribute value is [NaN], or when that
    number is the current [hoverIndex]; otherwise it sets [hoverIndex] and
    [activeIndex] to [Number] of the attribute value and leaves
    [activeElement] alone. *)
Theorem handleMove_cases (env : Env) (p : Props) (s : State) (e : MouseEvent) :
  let name := listItemIndexAttribute p in
  let d := document env in
  (target e = None -> handleMove env p s e = s)
  /\ (forall t, target e = Some t ->
        Forall (fun x => getAttribute d x name = None) (t :: ancestors d t) ->
        handleMove env p s e = s)
  /\ (forall el, hitElement env p e = Some el ->
        Number (getAttribute d el name) = NaN ->
        handleMove env p s e = s)
  /\ (forall el, hitElement env p e = Some el ->
        strict_eq (hoverIndex s) (Number (getAttribute d el name)) = true ->
        handleMove env p s e = s)
  /\ (forall el, hitElement env p e = Some el ->
        isNaN (Number (getAttribute d el name)) = false ->
        strict_eq (hoverIndex s) (Number (getAttribute d el name)) = false ->
        handleMove env p s e =
          {| hoverIndex := Number (getAttribute d el name);
             activeIndex := Number (getAttribute d el name);
             activeElement := activeElement s |}).
Proof.
  intros name d. unfold handleMove, hitElement. fold name d.
  repeat split.
  - intros ->. reflexivity.
  - intros t -> Hall. now rewrite (closest_none d t name Hall).
  - intros el -> ->. reflexivity.
  - intros el -> ->. now rewrite orb_true_r.
  - intros el -> -> ->. reflexivity.
Qed.

Lemma handleMove_cases_witness :
  let over (e : HTMLElement) := {| target := Some e |} in
  let hovering := {| hoverIndex := ofZ 2; activeIndex := ofZ 2;
                     activeElement := Some 3%positive |} in
  handleMove Demo.env Demo.five initialState {| target := None |}
    = initialState
  /\ handleMove Demo.env Demo.five initialState (over Demo.ul) = initialState
  /\ handleMove Demo.env Demo.five initialState (over 11%positive)
     = initialState
  /\ handleMove Demo.env Demo.five hovering (over 6%positive) = hovering
  /\ handleMove Demo.env Demo.five initialState (over 6%positive)
     = {| hoverIndex := ofZ 2; activeIndex := ofZ 2; activeElement := None |}.
Proof.
  intros over hovering.
  pose proof (handleMove_cases Demo.env Demo.five initialState
                {| target := None |}) as (H1 & _).
  pose proof (handleMove_cases Demo.env Demo.five initialState
                (over Demo.ul)) as (_ & H2 & _).
  pose proof (handleMove_cases Demo.env Demo.five initialState
                (over 11%positive)) as (_ & _ & H3 & _).
  pose proof (handleMove_cases Demo.env Demo.five hovering
                (over 6%positive)) as (_ & _ & _ & H4 & _).
  pose proof (handleMove_cases Demo.env Demo.five initialState
                (over 6%positive)) as (_ & _ & _ & _ & H5).
  split; [exact (H1 eq_refl)|].
  split; [apply (H2 Demo.ul eq_refl); repeat constructor|].
  split; [exact (H3 11%positive eq_refl eq_refl)|].
  split; [exact (H4 3%positive eq_refl eq_refl)|].
  exact (H5 3%positive eq_refl eq_refl eq_refl).
Defined.

(** C5 as stated fails: node 7 of the demo document carries the attribute
    text [.5], which is no integer, and [handleMove] over it from the
    initial state sets both indices to one half. *)
Lemma handleMove_accepts_fraction :
  getAttribute Demo.demoDocument 7%positive "data-index" = Some ".5"
  /\ Number (Some ".5") = Fin (1 # 2)
  /\ (forall z : Z, strict_eq (Fin (1 # 2)) (ofZ z) = false)
  /\ handleMove Demo.env Demo.five initialState {| target := Some 7%positive |}
     = {| hoverIndex := Fin (1 # 2); activeIndex := Fin (1 # 2);
          activeElement := None |}.
Proof.
  split; [reflexivity|]. split; [vm_compute; reflexivity|].
  split; [|vm_compute; reflexivity].
  intros z. unfold strict_eq, ofZ, Qeq_bool, inject_Z. cbn [Qnum Qden].
  apply Z.eqb_neq. lia.
Qed.

(** Two more attribute texts that are no integer and yet are accepted:
    the empty text counts as 0, and [Infinity] as itself. *)
Example handleMove_accepts_empty_text :
  getAttribute Demo.demoDocument 12%positive "data-index" = Some EmptyString
  /\ handleMove Demo.env Demo.five initialState {| target := Some 12%positive |}
     = {| hoverIndex := ofZ 0; activeIndex := ofZ 0; activeElement := None |}.
Proof. split; reflexivity. Qed.

Example handleMove_accepts_Infinity :
  handleMove Demo.env Demo.five initialState {| target := Some 9%positive |}
  = {| hoverIndex := Infinity false; activeIndex := Infinity false;
       activeElement := None |}.
Proof. reflexivity. Qed.

(* ------------------------------------------------------------------ *)
(** ** Effects *)

Lemma settle_unfold (fuel : nat) (env : Env) (prev : option Render)
  (cur : Render) :
  settle (S fuel) env prev cur =
    (let '(requests, s') := runEffects env prev cur in
     let next := {| props := props cur; state := s' |} in
     if state_is s' (state cur) then Some (requests, next)
     else
       match settle fuel env (Some cur) next with
       | Some (later, r) => Some ((requests ++ later)%list, r)
       | None => None
       end).
Proof. reflexivity. Qed.

(** A property of the state and of the requests that every render keeps
    holds when the render cycle has come to rest. *)
Lemma settle_invariant (env : Env) (P : State -> Prop)
  (Q : ScrollRequest -> Prop) :
  (forall prev cur, P (state cur) ->
     P (snd (runEffects env prev cur))
     /\ Forall Q (fst (runEffects env prev cur))) ->
  forall fuel prev cur reqs r,
    P (state cur) -> settle fuel env prev cur = Some (reqs, r) ->
    P (state r) /\ Forall Q reqs.
Proof.
  intros Hpass. induction fuel as [|fuel IH]; intros prev cur reqs r HP.
  - discriminate.
  - rewrite settle_unfold. destruct (Hpass prev cur HP) as [HP' HQ].
    destruct (runEffects env prev cur) as [reqs1 s1]; cbn [fst snd] in *.
    cbv zeta. destruct (state_is s1 (state cur)).
    + intros [= <- <-]. auto.
    + destruct (settle fuel env (Some cur) {| props := props cur; state := s1 |})
        as [[later r']|] eqn:E; [|discriminate].
      intros [= <- <-].
      destruct (IH (Some cur) {| props := props cur; state := s1 |}
                  later r' HP' E) as [HPr HQl].
      split; [exact HPr | apply Forall_app; auto].
Qed.

Lemma step_total (env : Env) (r : Render) (ev : Event) :
  exists reqs s',
    step env r ev =
      Some (reqs, {| props := props (dispatch env r ev); state := s' |}).
Proof.
  unfold step.
  destruct (settle_terminates env (Some r) (dispatch env r ev))
    as (reqs & s' & E & _).
  eauto.
Qed.

(** C7.  When [listLength] changes, whatever the old and the new value and
    whatever [activeIndex] was, the state comes to rest with [activeIndex]
    0. *)
Theorem length_change_resets (env : Env) (r : Render) (p' : Props) :
  object_is (listLength (props r)) (listLength p') = false ->
  exists reqs s',
    step env r (NewProps p') = Some (reqs, {| props := p'; state := s' |})
    /\ activeIndex s' = ofZ 0.
Proof.
  intros Hchg. unfold step, renders. cbn [dispatch].
  set (cur := {| props := p'; state := state r |}).
  rewrite settle_unfold.
  assert (Ha := runEffects_activeIndex env (Some r) cur).
  unfold changed in Ha. cbn [props cur] in Ha. rewrite Hchg in Ha.
  cbn [negb] in Ha.
  destruct (runEffects env (Some r) cur) as [reqs s1]; cbn [snd] in Ha.
  cbv zeta. cbn [props cur].
  destruct (state_is s1 (state cur)).
  - exists reqs, s1. auto.
  - destruct (settle_same_props env 0 cur {| props := p'; state := s1 |}
                eq_refl) as (later & s2 & E & _ & Ha2 & _).
    rewrite E. cbn [props state] in *.
    eexists _, s2. split; [reflexivity | congruence].
Qed.

Lemma length_change_resets_witness :
  let r := {| props := Demo.five;
              state := {| hoverIndex := ofZ (-1); activeIndex := ofZ 3;
                          activeElement := Some 4%positive |} |} in
  let shorter := {| listLength := ofZ 2;
                    listItemIndexAttribute := "data-index" |} in
  exists reqs s',
    step Demo.env r (NewProps shorter)
      = Some (reqs, {| props := shorter; state := s' |})
    /\ activeIndex s' = ofZ 0.
Proof.
  intros r shorter.
  exact (length_change_resets Demo.env r shorter eq_refl).
Defined.

(** C8.  When [getSelectedElement] finds nothing for [activeIndex], the
    effects leave [activeElement] as it is; [activeElement] changes only to
    an element that [getSelectedElement] found; and no event, with the
    renders it causes, takes a present [activeElement] back to none. *)
Theorem activeElement_kept :
  (forall env prev cur,
     getSelectedElement env (props cur) (activeIndex (state cur)) = None ->
     activeElement (snd (runEffects env prev cur)) = activeElement (state cur))
  /\ (forall env prev cur,
        activeElement (snd (runEffects env prev cur))
          <> activeElement (state cur) ->
        exists elem,
          getSelectedElement env (props cur) (activeIndex (state cur))
            = Some elem
          /\ activeElement (snd (runEffects env prev cur)) = Some elem)
  /\ (forall env r ev elem,
        activeElement (state r) = Some elem ->
        exists reqs r' elem',
          step env r ev = Some (reqs, r')
          /\ activeElement (state r') = Some elem').
Proof.
  split; [|split].
  - intros env prev cur Hnone.
    rewrite runEffects_activeElement, Hnone. now destruct (_ || _).
  - intros env prev cur. rewrite runEffects_activeElement.
    destruct (_ || _); [|congruence].
    destruct (getSelectedElement env (props cur) (activeIndex (state cur)))
      as [elem|]; [eauto | congruence].
  - intros env r ev elem Hsome.
    destruct (step_total env r ev) as (reqs & s' & E).
    assert (Hd : activeElement (state (dispatch env r ev)) <> None).
    { destruct ev; cbn [dispatch state]; try congruence.
      - unfold handleKeypress.
        repeat match goal with
               | |- context [if ?b then _ else _] => destruct b
               end; cbn; congruence.
      - unfold handleMove.
        destruct (hitElement env (props r) e); [|congruence].
        destruct (_ || _); cbn; congruence.
      - cbn. congruence.
      - cbn. congruence. }
    assert (Hpass : forall prev cur,
               activeElement (state cur) <> None ->
               activeElement (snd (runEffects env prev cur)) <> None
               /\ Forall (fun _ => True) (fst (runEffects env prev cur))).
    { intros prev cur Hcur. split.
      - rewrite runEffects_activeElement. destruct (_ || _); [|exact Hcur].
        destruct (getSelectedElement env (props cur) (activeIndex (state cur)));
          [discriminate | exact Hcur].
      - apply Forall_forall. trivial. }
    destruct (settle_invariant env (fun s => activeElement s <> None)
                (fun _ => True) Hpass renders (Some r) (dispatch env r ev)
                reqs _ Hd E) as [Hkeep _].
    cbn [state] in Hkeep. destruct (activeElement s') as [elem'|] eqn:He.
      * exists reqs, {| props := props (dispatch env r ev); state := s' |}, elem'.
        split; [exact E | exact He].
      * congruence.
Qed.

Lemma activeElement_kept_witness :
  let shown := {| props := Demo.five;
                  state := {| hoverIndex := ofZ (-1); activeIndex := ofZ 7;
                              activeElement := Some 2%positive |} |} in
  let gone :=
    {| document :=
         {| attributes := attributes Demo.demoDocument;
            ancestors := ancestors Demo.demoDocument;
            offsetTop := offsetTop Demo.demoDocument;
            offsetHeight := offsetHeight Demo.demoDocument;
            querySelector := fun _ _ => None |};
       ref_current := Some Demo.ul |} in
  activeElement (snd (runEffects gone None shown)) = Some 2%positive
  /\ (exists elem,
        getSelectedElement Demo.env Demo.five (ofZ 7) = Some elem
        /\ activeElement (snd (runEffects Demo.env None shown)) = Some elem)
  /\ (exists reqs r' elem',
        step gone shown (snd Demo.leave) = Some (reqs, r')
        /\ activeElement (state r') = Some elem').
Proof.
  intros shown gone.
  destruct activeElement_kept as (H1 & H2 & H3).
  split; [exact (H1 gone None shown eq_refl)|].
  split; [apply (H2 Demo.env None shown); discriminate|].
  exact (H3 gone shown (snd Demo.leave) 2%positive eq_refl).
Defined.

(* ------------------------------------------------------------------ *)
(** ** Scroll synchronisation *)

Lemma not_below_zero (x : number) :
  lt x (ofZ 0) = false -> ge x (ofZ 0) || isNaN x = true.
Proof.
  destruct x as [|sg|q]; cbn [lt ge isNaN ofZ].
  - intros _. apply orb_true_r.
  - intros ->. reflexivity.
  - intros H. apply negb_false_iff in H. now rewrite H.
Qed.

(** What holds when the third effect, once run, requests a scroll. *)
Lemma scrollEffect_request (env : Env) (s : State) (req : ScrollRequest) :
  In req (scrollEffect env s) ->
  exists container elem,
    ref_current env = Some container
    /\ activeElement s = Some elem
    /\ lt (activeIndex s) (ofZ 0) = false
    /\ strict_eq (activeIndex s) (hoverIndex s) = false
    /\ strict_eq (hoverIndex s) (ofZ (-2)) = false
    /\ req =
         {| scrolled := container;
            options :=
              {| top := add (sub (offsetTop (document env) elem)
                                 (offsetHeight (document env) container))
                            (offsetHeight (document env) elem);
                 behavior := smooth |} |}.
Proof.
  unfold scrollEffect.
  destruct (ref_current env) as [container|]; [|intros []].
  destruct (activeElement s) as [elem|]; [|intros []].
  destruct (lt (activeIndex s) (ofZ 0)); [intros []|].
  destruct (strict_eq (activeIndex s) (hoverIndex s)); [intros []|].
  destruct (strict_eq (hoverIndex s) (ofZ (-2))); [intros []|].
  cbn [orb In]. intros [<-|[]]. exists container, elem. repeat split.
Qed.

Lemma runEffects_requests (env : Env) (prev : option Render) (cur : Render) :
  fst (runEffects env prev cur) =
    if changed object_is (fun r => activeIndex (state r)) prev cur
       || changed object_is (fun r => hoverIndex (state r)) prev cur
       || changed element_is (fun r => activeElement (state r)) prev cur
    then scrollEffect env (state cur) else [].
Proof. reflexivity. Qed.

(** C9.  Every scroll request is made on the container, asks for the
    offset [offsetTop - containerHeight + offsetHeight] of the active
    element, and asks for smooth behaviour. *)
Theorem scroll_request_offset (env : Env) (prev : option Render)
  (cur : Render) (req : ScrollRequest) :
  In req (fst (runEffects env prev cur)) ->
  exists container elem,
    ref_current env = Some container
    /\ activeElement (state cur) = Some elem
    /\ scrolled req = container
    /\ top (options req) =
         add (sub (offsetTop (document env) elem)
                  (offsetHeight (document env) container))
             (offsetHeight (document env) elem)
    /\ behavior (options req) = smooth.
Proof.
  rewrite runEffects_requests. destruct (_ || _); [|intros []].
  intros Hin.
  destruct (scrollEffect_request env (state cur) req Hin)
    as (container & elem & Hc & He & _ & _ & _ & ->).
  exists container, elem. repeat split; assumption.
Qed.

Lemma scroll_request_offset_witness :
  let prev := {| props := Demo.five;
                 state := {| hoverIndex := ofZ (-1); activeIndex := ofZ 2;
                             activeElement := Some 3%positive |} |} in
  let cur := {| props := Demo.five;
                state := {| hoverIndex := ofZ (-1); activeIndex := ofZ 3;
                            activeElement := Some 4%positive |} |} in
  exists container elem,
    ref_current Demo.env = Some container
    /\ activeElement (state cur) = Some elem
    /\ Demo.ul = container
    /\ ofZ 20 =
         add (sub (offsetTop Demo.demoDocument elem)
                  (offsetHeight Demo.demoDocument container))
             (offsetHeight Demo.demoDocument elem)
    /\ smooth = smooth.
Proof.
  intros prev cur.
  exact (scroll_request_offset Demo.env (Some prev) cur
           {| scrolled := Demo.ul;
              options := {| top := ofZ 20; behavior := smooth |} |}
           (or_introl eq_refl)).
Defined.

(** C1, as amended.  A scroll request is issued only when all of these
    hold at once: the container handle is there; [activeIndex] is not below
    0, that is, it is [>= 0] or it is [NaN]; [activeIndex] differs from
    [hoverIndex]; [activeElement] is present; [hoverIndex] is not -2; and
    one of [activeIndex], [hoverIndex] and [activeElement] changed since
    the render before (at the first render each counts as changed).  In a
    state reached by [handleLeave] no scroll is requested, neither by a
    single render nor by the renders that [handleLeave] causes. *)
Theorem scroll_request_conditions :
  (forall env prev cur req,
     In req (fst (runEffects env prev cur)) ->
     ref_current env = Some (scrolled req)
     /\ ge (activeIndex (state cur)) (ofZ 0)
        || isNaN (activeIndex (state cur)) = true
     /\ strict_eq (activeIndex (state cur)) (hoverIndex (state cur)) = false
     /\ (exists elem, activeElement (state cur) = Some elem)
     /\ strict_eq (hoverIndex (state cur)) (ofZ (-2)) = false
     /\ changed object_is (fun r => activeIndex (state r)) prev cur
        || changed object_is (fun r => hoverIndex (state r)) prev cur
        || changed element_is (fun r => activeElement (state r)) prev cur
        = true)
  /\ (forall env prev p s,
        fst (runEffects env prev {| props := p; state := handleLeave s |}) = [])
  /\ (forall env r,
        exists r', step env r MouseLeave = Some ([], r')).
Proof.
  split; [|split].
  - intros env prev cur req. rewrite runEffects_requests.
    destruct (_ || _) eqn:Hchg; [|intros []].
    intros Hin.
    destruct (scrollEffect_request env (state cur) req Hin)
      as (container & elem & Hc & He & Hlt & Hne & Hleft & ->).
    cbn [scrolled].
    repeat split; try assumption.
    + apply not_below_zero, Hlt.
    + exists elem. exact He.
  - intros env prev p s. rewrite runEffects_requests. cbn [state].
    rewrite scrollEffect_left by reflexivity. now destruct (_ || _).
  - intros env r. eexists. apply step_leave.
Qed.

Lemma scroll_request_conditions_witness :
  let prev := {| props := Demo.five;
                 state := {| hoverIndex := ofZ (-1); activeIndex := ofZ 2;
                             activeElement := Some 3%positive |} |} in
  let cur := {| props := Demo.five;
                state := {| hoverIndex := ofZ (-1); activeIndex := ofZ 3;
                            activeElement := Some 4%positive |} |} in
  fst (runEffects Demo.env (Some prev) cur)
    = [ {| scrolled := Demo.ul;
           options := {| top := ofZ 20; behavior := smooth |} |} ]
  /\ ref_current Demo.env = Some Demo.ul
  /\ ge (ofZ 3) (ofZ 0) || isNaN (ofZ 3) = true
  /\ strict_eq (ofZ 3) (ofZ (-1)) = false
  /\ (exists elem, Some 4%positive = Some elem)
  /\ strict_eq (ofZ (-1)) (ofZ (-2)) = false
  /\ changed object_is (fun r => activeIndex (state r)) (Some prev) cur
     || changed object_is (fun r => hoverIndex (state r)) (Some prev) cur
     || changed element_is (fun r => activeElement (state r)) (Some prev) cur
     = true.
Proof.
  intros prev cur. split; [reflexivity|].
  exact (proj1 scroll_request_conditions Demo.env (Some prev) cur
           {| scrolled := Demo.ul;
              options := {| top := ofZ 20; behavior := smooth |} |}
           (or_introl eq_refl)).
Defined.

(** C1 as stated fails, in two ways.  Over the first item of the demo list
    ([hoverIndex] and [activeIndex] both 0) the Home key requests a scroll
    although [activeIndex] is 0 before and after: only [hoverIndex]
    changed.  Over node 9, whose attribute text is [Infinity], the Down key
    makes [activeIndex] [NaN], which is not [>= 0], and a scroll is
    requested. *)
Lemma scroll_without_index_change :
  let hovering :=
    {| props := Demo.five;
       state := {| hoverIndex := ofZ 0; activeIndex := ofZ 0;
                   activeElement := Some 1%positive |} |} in
  let home := KeyPress {| key := Keys.Home; defaultPrevented := false |} in
  let far :=
    {| props := Demo.five;
       state := {| hoverIndex := Infinity false; activeIndex := Infinity false;
                   activeElement := Some 9%positive |} |} in
  let down := KeyPress {| key := Keys.ArrowDown; defaultPrevented := false |} in
  option_map snd (Demo.play [Demo.moveOver 1%positive]) = Some hovering
  /\ step Demo.env hovering home
     = Some ([ {| scrolled := Demo.ul;
                  options := {| top := ofZ (-40); behavior := smooth |} |} ],
             {| props := Demo.five;
                state := {| hoverIndex := ofZ (-1); activeIndex := ofZ 0;
                            activeElement := Some 1%positive |} |})
  /\ changed object_is (fun r => activeIndex (state r)) (Some hovering)
       (dispatch Demo.env hovering home) = false
  /\ option_map snd (Demo.play [Demo.moveOver 9%positive]) = Some far
  /\ step Demo.env far down
     = Some ([ {| scrolled := Demo.ul;
                  options := {| top := ofZ 120; behavior := smooth |} |} ],
             {| props := Demo.five;
                state := {| hoverIndex := ofZ (-1); activeIndex := NaN;
                            activeElement := Some 9%positive |} |})
  /\ ge NaN (ofZ 0) = false.
Proof.
  cbv zeta. repeat (split; [vm_compute; reflexivity|]). reflexivity.
Qed.

(* ------------------------------------------------------------------ *)
(** ** The range of [activeIndex] *)

(** The [switch] of [handleKeypress], case by case. *)
Lemma nextIndex_cases (p : Props) (s : State) (k : string) :
  (k = Keys.ArrowUp
   /\ nextIndex p s k =
        rem (add (sub (baseIndex s) (ofZ 1)) (listLength p)) (listLength p))
  \/ (k = Keys.ArrowDown
      /\ nextIndex p s k = rem (add (baseIndex s) (ofZ 1)) (listLength p))
  \/ ((k = Keys.PageUp \/ k = Keys.Home) /\ nextIndex p s k = ofZ 0)
  \/ ((k = Keys.PageDown \/ k = Keys.End_)
      /\ nextIndex p s k = sub (listLength p) (ofZ 1))
  \/ (~ In k Keys.all /\ nextIndex p s k = ofZ (-1)).
Proof.
  destruct (String.eqb_spec k Keys.ArrowUp) as [->|N1].
  { left. split; [reflexivity | apply nextIndex_ArrowUp]. }
  destruct (String.eqb_spec k Keys.ArrowDown) as [->|N2].
  { right; left. split; [reflexivity | apply nextIndex_ArrowDown]. }
  unfold nextIndex.
  rewrite (proj2 (String.eqb_neq _ _) N1), (proj2 (String.eqb_neq _ _) N2).
  destruct (String.eqb_spec k Keys.PageUp) as [->|N3].
  { right; right; left. split; [auto | reflexivity]. }
  destruct (String.eqb_spec k Keys.Home) as [->|N4].
  { right; right; left. split; [auto | reflexivity]. }
  destruct (String.eqb_spec k Keys.PageDown) as [->|N5].
  { right; right; right; left. split; [auto | reflexivity]. }
  destruct (String.eqb_spec k Keys.End_) as [->|N6].
  { right; right; right; left. split; [auto | reflexivity]. }
  right; right; right; right. split; [|reflexivity].
  unfold Keys.all. cbn [In]. intuition congruence.
Qed.

(** From an integral base that is not negative, every key gives an index
    into the list or the value -1 that stands for no move; a registered
    key gives an index. *)
Lemma nextIndex_range (p : Props) (s : State) (n b : Z) (k : string) :
  listLength p = ofZ n -> 0 < n -> baseIndex s = ofZ b -> 0 <= b ->
  is_index n (nextIndex p s k)
  \/ (~ In k Keys.all /\ nextIndex p s k = ofZ (-1)).
Proof.
  intros Hn Hpos Hbase Hb.
  destruct (nextIndex_cases p s k)
    as [[-> _]|[[-> _]|[[_ E]|[[_ E]|H]]]].
  - left. rewrite (up_from p s n b Hn Hpos Hb Hbase).
    eexists; split; [reflexivity | apply Z.mod_pos_bound; lia].
  - left. rewrite (down_from p s n b Hn Hpos Hb Hbase).
    eexists; split; [reflexivity | apply Z.mod_pos_bound; lia].
  - left. rewrite E. exists 0. split; [reflexivity | lia].
  - left. rewrite E, Hn, sub_ofZ. exists (n - 1). split; [reflexivity | lia].
  - right. exact H.
Qed.

Lemma is_index_not_minus_one (n : Z) (i : number) :
  is_index n i -> strict_eq i (ofZ (-1)) = false.
Proof.
  intros (z & -> & Hz). rewrite strict_eq_ofZ. apply Z.eqb_neq. lia.
Qed.

Lemma navigable_base (n : Z) (s : State) :
  navigable n s -> exists b, baseIndex s = ofZ b /\ 0 <= b.
Proof.
  intros [[h Hh] (a & Ha & Hr)].
  destruct (Z_le_gt_dec 0 h).
  - exists h. split; [apply baseIndex_hover; assumption | assumption].
  - exists a. split; [|lia].
    rewrite (baseIndex_active s h Hh) by lia. exact Ha.
Qed.

Lemma handleKeypress_navigable (p : Props) (s : State) (n : Z)
  (e : KeyboardEvent) :
  listLength p = ofZ n -> 0 < n -> navigable n s ->
  navigable n (snd (handleKeypress p s e)).
Proof.
  intros Hn Hpos Hs.
  destruct (navigable_base n s Hs) as (b & Hbase & Hb).
  destruct (nextIndex_range p s n b (key e) Hn Hpos Hbase Hb) as [Hi|[_ E]].
  - rewrite handleKeypress_moves.
    + split; [exists (-1); reflexivity | exact Hi].
    + rewrite Hn. apply length_not_zero, Hpos.
    + apply (is_index_not_minus_one n), Hi.
  - rewrite handleKeypress_stays; [exact Hs|].
    rewrite E. apply strict_eq_ofZ.
Qed.

Lemma handleMove_navigable (env : Env) (p : Props) (s : State) (n : Z)
  (e : MouseEvent) :
  navigation n p (env, MouseMove e) -> navigable n s ->
  navigable n (handleMove env p s e).
Proof.
  unfold navigation, handleMove. cbn [fst snd].
  destruct (hitElement env p e) as [el|]; [|auto].
  cbv zeta. intros [->|Hi] Hs; [exact Hs|].
  destruct (isNaN _ || strict_eq _ _); [exact Hs|].
  split; cbn [hoverIndex activeIndex setActiveIndex setHoverIndex];
    [|exact Hi].
  destruct Hi as (z & -> & _). eauto.
Qed.

Lemma step_navigable (env : Env) (r : Render) (n : Z) (ev : Event) :
  listLength (props r) = ofZ n -> 0 < n ->
  navigation n (props r) (env, ev) -> navigable n (state r) ->
  exists reqs s',
    step env r ev = Some (reqs, {| props := props r; state := s' |})
    /\ navigable n s'.
Proof.
  intros Hn Hpos Hev Hs.
  assert (Hd : exists s1, dispatch env r ev = {| props := props r; state := s1 |}
                          /\ navigable n s1).
  { destruct ev; cbn [dispatch]; try contradiction.
    - eexists; split; [reflexivity|].
      apply handleKeypress_navigable; assumption.
    - eexists; split; [reflexivity|].
      apply handleMove_navigable; assumption.
    - eexists; split; [reflexivity|].
      destruct Hs as [_ Ha]. split; [exists (-2); reflexivity | exact Ha]. }
  destruct Hd as (s1 & Hd & Hs1). unfold step. rewrite Hd.
  destruct (settle_after_handler env r s1) as (reqs & s' & E & Hh & Ha & _).
  exists reqs, s'. split; [exact E|].
  unfold navigable. rewrite Hh, Ha. exact Hs1.
Qed.

Lemma run_navigable (n : Z) (evs : list (Env * Event)) :
  forall r,
    listLength (props r) = ofZ n -> 0 < n ->
    Forall (navigation n (props r)) evs -> navigable n (state r) ->
    exists reqs s',
      run r evs = Some (reqs, {| props := props r; state := s' |})
      /\ navigable n s'.
Proof.
  induction evs as [|[env ev] evs IH]; intros r Hn Hpos Hall Hs.
  - exists [], (state r). split; [destruct r; reflexivity | exact Hs].
  - inversion Hall as [|x l Hev Hrest]; subst.
    destruct (step_navigable env r n ev Hn Hpos Hev Hs)
      as (reqs & s1 & E & Hs1).
    cbn [run]. rewrite E.
    destruct (IH {| props := props r; state := s1 |} Hn Hpos Hrest Hs1)
      as (later & s2 & E2 & Hs2).
    rewrite E2. cbn [props]. eexists _, s2. split; [reflexivity | exact Hs2].
Qed.

Lemma mount_navigable (env : Env) (p : Props) (n : Z) :
  0 < n ->
  exists reqs s',
    mount env p = Some (reqs, {| props := p; state := s' |})
    /\ navigable n s'.
Proof.
  intros Hpos. unfold mount.
  destruct (settle_terminates env None {| props := p; state := initialState |})
    as (reqs & s' & E & Hh & Ha).
  exists reqs, s'. split; [exact E|].
  cbn [changed state] in Hh, Ha. split.
  - exists (-1). exact Hh.
  - exists 0. split; [exact Ha | lia].
Qed.

Lemma Forall_prefix {A : Type} (P : A -> Prop) (k : nat) (l : list A) :
  Forall P l -> Forall P (firstn k l).
Proof.
  intros H. revert k. induction H; intros [|k]; cbn; auto.
Qed.

(** C2, as amended.  On a list of length n > 0, after mounting and after
    each operation of a sequence of keyboard and pointer operations, the
    state is there and [0 <= activeIndex < n] holds, provided every
    attribute value that [handleMove] accepts in the sequence is an integer
    of [0, n); [handleMove] itself checks no bound.  And a registered key
    pressed while [hoverIndex] is an integer [>= 0], be it [n] or more,
    gives an [activeIndex] of [0, n). *)
Theorem activeIndex_in_range :
  (forall env p n evs k,
     listLength p = ofZ n -> 0 < n -> Forall (navigation n p) evs ->
     exists reqs s',
       session env p (firstn k evs) =
         Some (reqs, {| props := p; state := s' |})
       /\ is_index n (activeIndex s'))
  /\ (forall p s n h e,
        listLength p = ofZ n -> 0 < n ->
        hoverIndex s = ofZ h -> 0 <= h -> In (key e) Keys.all ->
        is_index n (activeIndex (snd (handleKeypress p s e)))).
Proof.
  split.
  - intros env p n evs k Hn Hpos Hall. unfold session.
    destruct (mount_navigable env p n Hpos) as (reqs & s0 & E & Hs0).
    rewrite E.
    destruct (run_navigable n (firstn k evs) {| props := p; state := s0 |}
                Hn Hpos (Forall_prefix _ k evs Hall) Hs0)
      as (later & s' & E' & [_ Hs']).
    rewrite E'. cbn [props]. eexists _, s'. split; [reflexivity | exact Hs'].
  - intros p s n h e Hn Hpos Hh Hge Hkey.
    assert (Hbase := baseIndex_hover s h Hh Hge).
    destruct (nextIndex_range p s n h (key e) Hn Hpos Hbase Hge)
      as [Hi|[Hno _]]; [|contradiction].
    rewrite handleKeypress_moves.
    + exact Hi.
    + rewrite Hn. apply length_not_zero, Hpos.
    + apply (is_index_not_minus_one n), Hi.
Qed.

Lemma activeIndex_in_range_witness :
  let beyond := {| hoverIndex := ofZ 7; activeIndex := ofZ 7;
                   activeElement := Some 8%positive |} in
  let down := {| key := Keys.ArrowDown; defaultPrevented := false |} in
  (exists reqs s',
     session Demo.env Demo.five (firstn 7 Demo.scenario) =
       Some (reqs, {| props := Demo.five; state := s' |})
     /\ is_index 5 (activeIndex s'))
  /\ is_index 5 (activeIndex (snd (handleKeypress Demo.five beyond down))).
Proof.
  intros beyond down.
  destruct activeIndex_in_range as [Hrun Hkey]. split.
  - apply (Hrun Demo.env Demo.five 5 Demo.scenario 7%nat eq_refl eq_refl).
    unfold Demo.scenario.
    repeat (apply Forall_cons; [exact I|]).
    apply Forall_cons.
    + right. exists 2. split; [reflexivity | lia].
    + repeat (apply Forall_cons; [exact I|]). apply Forall_nil.
  - apply (Hkey Demo.five beyond 5 7 down eq_refl eq_refl eq_refl).
    + lia.
    + right; left; reflexivity.
Defined.

(** C2 as stated fails: node 8 of the demo document carries the attribute
    text 7; the pointer over it, on the list of five, makes [activeIndex]
    7, which is not below the length. *)
Lemma handleMove_out_of_range :
  getAttribute Demo.demoDocument 8%positive "data-index" = Some "7"
  /\ listLength Demo.five = ofZ 5
  /\ option_map snd (Demo.play [Demo.moveOver 8%positive])
     = Some {| props := Demo.five;
               state := {| hoverIndex := ofZ 7; activeIndex := ofZ 7;
                           activeElement := Some 8%positive |} |}
  /\ lt (ofZ 7) (ofZ 5) = false.
Proof.
  repeat (split; [vm_compute; reflexivity|]). reflexivity.
Qed.

(** The scenario of the specification, step by step: the values of
    [activeIndex] and [hoverIndex] after each event. *)
Example scenario_trace :
  map (fun k =>
         option_map (fun x => (activeIndex (state (snd x)),
                               hoverIndex (state (snd x))))
           (Demo.play (firstn k Demo.scenario)))
      [1; 2; 3; 4; 5; 6; 7]%nat
  = [ Some (ofZ 1, ofZ (-1)); Some (ofZ 2, ofZ (-1)); Some (ofZ 3, ofZ (-1));
      Some (ofZ 4, ofZ (-1)); Some (ofZ 0, ofZ (-1)); Some (ofZ 2, ofZ 2);
      Some (ofZ 1, ofZ (-1)) ].
Proof. vm_compute. reflexivity. Qed.

(** Why the amended C2 asks for a [hoverIndex] that is not negative: over
    node 13, whose attribute text is -5, both indices become -5; the base
    of the next key is then [activeIndex]; Down gives -4, and Up computes
    -1, the value that stands for no move, so that Up does nothing. *)
Example keys_after_negative_attribute :
  map (fun evs =>
         option_map (fun x => (activeIndex (state (snd x)),
                               hoverIndex (state (snd x))))
           (Demo.play evs))
      [ [Demo.moveOver 13%positive];
        [Demo.moveOver 13%positive; Demo.press Keys.ArrowDown];
        [Demo.moveOver 13%positive; Demo.press Keys.ArrowUp] ]
  = [ Some (ofZ (-5), ofZ (-5)); Some (ofZ (-4), ofZ (-1));
      Some (ofZ (-5), ofZ (-5)) ].
Proof. vm_compute. reflexivity. Qed.

(* ------------------------------------------------------------------ *)
(** ** Further properties: the render cycle *)

Lemma settle_more_fuel (env : Env) (fuel : nat) :
  forall prev cur res,
    settle fuel env prev cur = Some res ->
    settle (S fuel) env prev cur = Some res.
Proof.
  induction fuel as [|fuel IH]; intros prev cur res; [discriminate|].
  rewrite (settle_unfold (S fuel)), (settle_unfold fuel).
  destruct (runEffects env prev cur) as [reqs s1]. cbv zeta.
  destruct (state_is s1 (state cur)); [trivial|].
  destruct (settle fuel env (Some cur) {| props := props cur; state := s1 |})
    as [[later r]|] eqn:E; [|discriminate].
  rewrite (IH _ _ _ E). trivial.
Qed.

(** X1.  The effects never loop: whatever the state, the arguments, the
    render before and the document, the renders come to rest within three
    renders, and allowing more renders gives the same scroll requests and
    the same final state. *)
Theorem settle_fuel_independent (env : Env) (prev : option Render)
  (cur : Render) (more : nat) :
  exists res,
    settle renders env prev cur = Some res
    /\ settle (renders + more) env prev cur = Some res.
Proof.
  destruct (settle_terminates env prev cur) as (reqs & s' & E & _).
  eexists. split; [exact E|].
  induction more as [|more IH].
  - rewrite Nat.add_0_r. exact E.
  - rewrite Nat.add_succ_r. apply settle_more_fuel, IH.
Qed.

(** With unchanged arguments the render cycle is one render, and a second
    one when the first changed the state. *)
Lemma settle_two (env : Env) (fuel : nat) (r cur : Render) :
  props r = props cur ->
  settle (S (S fuel)) env (Some r) cur =
    let s1 := snd (runEffects env (Some r) cur) in
    let next := {| props := props cur; state := s1 |} in
    Some (if state_is s1 (state cur)
          then fst (runEffects env (Some r) cur)
          else (fst (runEffects env (Some r) cur)
                ++ fst (runEffects env (Some cur) next))%list,
          next).
Proof.
  intros Ep. rewrite settle_unfold.
  assert (Ha := runEffects_activeIndex env (Some r) cur).
  destruct (unchanged_props r cur Ep) as [Hl _]. rewrite Hl in Ha.
  destruct (runEffects env (Some r) cur) as [reqs s1]. cbn [fst snd] in *.
  cbv zeta. destruct (state_is s1 (state cur)); [reflexivity|].
  rewrite (settle_quiet env fuel cur {| props := props cur; state := s1 |});
    [reflexivity | reflexivity |].
  cbn [state]. rewrite Ha. apply object_is_refl.
Qed.

Lemma scrollEffect_same (env : Env) (s : State) :
  strict_eq (activeIndex s) (hoverIndex s) = true -> scrollEffect env s = [].
Proof.
  intros H. unfold scrollEffect. rewrite H.
  destruct (ref_current env), (activeElement s); try reflexivity.
  now rewrite orb_true_r.
Qed.

Lemma strict_eq_refl (x : number) : isNaN x = false -> strict_eq x x = true.
Proof.
  destruct x as [|sg|q]; cbn; [discriminate | | ]; intros _.
  - apply Bool.eqb_reflx.
  - apply Qeq_bool_refl.
Qed.

(** X2.  Mounting: the state comes to rest with [hoverIndex] -1,
    [activeIndex] 0 and, as [activeElement], what [getSelectedElement]
    finds for index 0; one scroll request, for that element, is made when
    it is found and the container is attached, and none otherwise. *)
Theorem mount_result (env : Env) (p : Props) :
  mount env p =
    Some (match getSelectedElement env p (ofZ 0), ref_current env with
          | Some elem, Some container => [requestFor env container elem]
          | _, _ => []
          end,
          {| props := p;
             state := {| hoverIndex := ofZ (-1); activeIndex := ofZ 0;
                         activeElement := getSelectedElement env p (ofZ 0) |} |}).
Proof.
  unfold mount, renders. rewrite settle_unfold.
  unfold runEffects at 1. cbn [changed props state orb].
  change (activeIndex initialState) with (ofZ 0).
  destruct (getSelectedElement env p (ofZ 0)) as [elem|] eqn:Hsel.
  - assert (Hscroll0 : scrollEffect env initialState = []).
    { unfold scrollEffect. cbn [activeElement initialState].
      now destruct (ref_current env). }
    rewrite Hscroll0. cbv zeta.
    change (state_is (setActiveElement (Some elem)
                        (setActiveIndex (ofZ 0) initialState)) initialState)
      with false. cbv iota.
    rewrite settle_two by reflexivity. cbv zeta.
    unfold runEffects, changed. cbn [props state fst snd].
    cbn [setActiveElement setActiveIndex activeIndex hoverIndex activeElement
         initialState].
    rewrite !object_is_refl, String.eqb_refl. cbn [negb orb element_is].
    cbn [fst snd app]. unfold state_is. cbn [hoverIndex activeIndex activeElement].
    rewrite !object_is_refl, element_is_refl. cbn [andb].
    unfold scrollEffect, requestFor.
    destruct (ref_current env) as [container|]; reflexivity.
  - cbn [setActiveIndex hoverIndex activeIndex activeElement initialState].
    assert (Hscroll0 : scrollEffect env initialState = []).
    { unfold scrollEffect. cbn [activeElement initialState].
      now destruct (ref_current env). }
    rewrite Hscroll0. cbv zeta. reflexivity.
Qed.

(* ------------------------------------------------------------------ *)
(** ** Further properties: the keyboard *)

(** A key press that produces an index, with the renders it causes. *)
Lemma step_key_moves (env : Env) (r : Render) (e : KeyboardEvent) :
  strict_eq (listLength (props r)) (ofZ 0) = false ->
  strict_eq (nextIndex (props r) (state r) (key e)) (ofZ (-1)) = false ->
  exists reqs s',
    step env r (KeyPress e) = Some (reqs, {| props := props r; state := s' |})
    /\ activeIndex s' = nextIndex (props r) (state r) (key e)
    /\ hoverIndex s' = ofZ (-1).
Proof.
  intros Hlen Hnext. unfold step. cbn [dispatch].
  rewrite (handleKeypress_moves _ _ e Hlen Hnext). cbn [snd].
  destruct (settle_after_handler env r
              {| hoverIndex := ofZ (-1);
                 activeIndex := nextIndex (props r) (state r) (key e);
                 activeElement := activeElement (state r) |})
    as (reqs & s' & E & Hh & Ha & _).
  exists reqs, s'. auto.
Qed.

(** X3.  A key that is not one of the six registered keys changes nothing,
    whatever the state and the length: the handler marks the event as
    handled and returns the state as it is, no render follows and no scroll
    is requested. *)
Theorem unrecognized_key_ignored (env : Env) (r : Render)
  (e : KeyboardEvent) :
  ~ In (key e) Keys.all ->
  handleKeypress (props r) (state r) e = (preventDefault e, state r)
  /\ step env r (KeyPress e) = Some ([], r).
Proof.
  intros Hno.
  assert (Hnext : nextIndex (props r) (state r) (key e) = ofZ (-1)).
  { destruct (nextIndex_cases (props r) (state r) (key e))
      as [[E _]|[[E _]|[[E _]|[[E _]|[_ E]]]]]; [..|exact E];
      exfalso; apply Hno; unfold Keys.all; cbn [In]; intuition congruence. }
  assert (E : handleKeypress (props r) (state r) e = (preventDefault e, state r)).
  { apply handleKeypress_stays. rewrite Hnext. reflexivity. }
  split; [exact E|].
  apply step_idle. cbn [dispatch]. rewrite E. destruct r; reflexivity.
Qed.

Lemma unrecognized_key_ignored_witness :
  let r := {| props := Demo.five;
              state := {| hoverIndex := ofZ 2; activeIndex := ofZ 2;
                          activeElement := Some 3%positive |} |} in
  let enter := {| key := "Enter"; defaultPrevented := false |} in
  handleKeypress (props r) (state r) enter = (preventDefault enter, state r)
  /\ step Demo.env r (KeyPress enter) = Some ([], r).
Proof.
  intros r enter. apply (unrecognized_key_ignored Demo.env r enter).
  unfold Keys.all. cbn [In key enter]. intuition discriminate.
Defined.

(** One less than a length that is not 0 is not -1. *)
Lemma sub_one_not_sentinel (x : number) :
  strict_eq x (ofZ 0) = false ->
  strict_eq (sub x (ofZ 1)) (ofZ (-1)) = false.
Proof.
  destruct x as [|sg|a]; cbn [sub strict_eq ofZ]; try reflexivity.
  intros Hz.
  destruct (Qeq_bool (Qred (a - inject_Z 1)%Q) (inject_Z (-1))) eqn:E;
    [|reflexivity].
  apply Qeq_bool_eq in E. rewrite Qred_correct in E.
  apply Qeq_bool_neq in Hz. exfalso. apply Hz.
  setoid_replace a with ((a - inject_Z 1) + inject_Z 1)%Q by ring.
  rewrite E. reflexivity.
Qed.

(** X4.  With a length that is not 0, PageUp and Home always move to index
    0, and PageDown and End always move to [listLength - 1], from every
    state: [activeIndex] comes to rest at that value and [hoverIndex] at
    -1. *)
Theorem top_and_bottom_keys (env : Env) (r : Render) (e : KeyboardEvent) :
  strict_eq (listLength (props r)) (ofZ 0) = false ->
  (key e = Keys.PageUp \/ key e = Keys.Home ->
   exists reqs s',
     step env r (KeyPress e) = Some (reqs, {| props := props r; state := s' |})
     /\ activeIndex s' = ofZ 0 /\ hoverIndex s' = ofZ (-1))
  /\ (key e = Keys.PageDown \/ key e = Keys.End_ ->
      exists reqs s',
        step env r (KeyPress e)
          = Some (reqs, {| props := props r; state := s' |})
        /\ activeIndex s' = sub (listLength (props r)) (ofZ 1)
        /\ hoverIndex s' = ofZ (-1)).
Proof.
  intros Hlen. split; intros Hkey.
  - assert (Hnext : nextIndex (props r) (state r) (key e) = ofZ 0)
      by (destruct Hkey as [-> | ->]; reflexivity).
    destruct (step_key_moves env r e Hlen) as (reqs & s' & E & Ha & Hh).
    { rewrite Hnext. reflexivity. }
    exists reqs, s'. rewrite <- Hnext. auto.
  - assert (Hnext : nextIndex (props r) (state r) (key e)
                    = sub (listLength (props r)) (ofZ 1))
      by (destruct Hkey as [-> | ->]; reflexivity).
    destruct (step_key_moves env r e Hlen) as (reqs & s' & E & Ha & Hh).
    { rewrite Hnext. apply sub_one_not_sentinel, Hlen. }
    exists reqs, s'. rewrite <- Hnext. auto.
Qed.

Lemma top_and_bottom_keys_witness :
  let r := {| props := Demo.five;
              state := {| hoverIndex := ofZ 2; activeIndex := ofZ 2;
                          activeElement := Some 3%positive |} |} in
  (exists reqs s',
     step Demo.env r (pressed Keys.Home)
       = Some (reqs, {| props := Demo.five; state := s' |})
     /\ activeIndex s' = ofZ 0 /\ hoverIndex s' = ofZ (-1))
  /\ (exists reqs s',
        step Demo.env r (pressed Keys.End_)
          = Some (reqs, {| props := Demo.five; state := s' |})
        /\ activeIndex s' = ofZ 4 /\ hoverIndex s' = ofZ (-1)).
Proof.
  intros r. split.
  - exact (proj1 (top_and_bottom_keys Demo.env r
                    {| key := Keys.Home; defaultPrevented := false |} eq_refl)
             (or_intror eq_refl)).
  - exact (proj2 (top_and_bottom_keys Demo.env r
                    {| key := Keys.End_; defaultPrevented := false |} eq_refl)
             (or_intror eq_refl)).
Defined.




(** One Down or Up from a base index that is an integer and not negative. *)
Lemma step_down (env : Env) (r : Render) (n b : Z) :
  listLength (props r) = ofZ n -> 0 < n ->
  baseIndex (state r) = ofZ b -> 0 <= b ->
  exists reqs s',
    step env r (pressed Keys.ArrowDown)
      = Some (reqs, {| props := props r; state := s' |})
    /\ activeIndex s' = ofZ ((b + 1) mod n)
    /\ hoverIndex s' = ofZ (-1).
Proof.
  intros Hn Hpos Hbase Hb.
  assert (Hnext := down_from (props r) (state r) n b Hn Hpos Hb Hbase).
  destruct (step_key_moves env r
              {| key := Keys.ArrowDown; defaultPrevented := false |})
    as (reqs & s' & E & Ha & Hh).
  - rewrite Hn. apply length_not_zero, Hpos.
  - cbn [key]. rewrite Hnext, strict_eq_ofZ. apply Z.eqb_neq.
    pose proof (Z.mod_pos_bound (b + 1) n Hpos). lia.
  - exists reqs, s'. cbn [key] in Ha. rewrite Hnext in Ha. auto.
Qed.

Lemma step_up (env : Env) (r : Render) (n b : Z) :
  listLength (props r) = ofZ n -> 0 < n ->
  baseIndex (state r) = ofZ b -> 0 <= b ->
  exists reqs s',
    step env r (pressed Keys.ArrowUp)
      = Some (reqs, {| props := props r; state := s' |})
    /\ activeIndex s' = ofZ ((b - 1) mod n)
    /\ hoverIndex s' = ofZ (-1).
Proof.
  intros Hn Hpos Hbase Hb.
  assert (Hnext := up_from (props r) (state r) n b Hn Hpos Hb Hbase).
  replace ((b - 1 + n) mod n) with ((b - 1) mod n) in Hnext
    by (rewrite <- (Z_mod_plus_full (b - 1) 1 n); f_equal; lia).
  destruct (step_key_moves env r
              {| key := Keys.ArrowUp; defaultPrevented := false |})
    as (reqs & s' & E & Ha & Hh).
  - rewrite Hn. apply length_not_zero, Hpos.
  - cbn [key]. rewrite Hnext, strict_eq_ofZ. apply Z.eqb_neq.
    pose proof (Z.mod_pos_bound (b - 1) n Hpos). lia.
  - exists reqs, s'. cbn [key] in Ha. rewrite Hnext in Ha. auto.
Qed.

(** After a key has moved, the base of the next key is [activeIndex]. *)
Lemma baseIndex_after_key (s : State) (a : Z) :
  activeIndex s = ofZ a -> hoverIndex s = ofZ (-1) -> baseIndex s = ofZ a.
Proof.
  intros Ha Hh. rewrite (baseIndex_active s (-1) Hh) by lia. exact Ha.
Qed.





(** X7.  On a list of length n > 0, from a base index b of [0, n), Down
    followed by Up and Up followed by Down both lead back to b. *)
Theorem up_and_down_are_inverse (n b : Z) (env1 env2 : Env) (r : Render) :
  listLength (props r) = ofZ n -> 0 < n ->
  baseIndex (state r) = ofZ b -> 0 <= b < n ->
  (exists reqs s',
     run r [(env1, pressed Keys.ArrowDown); (env2, pressed Keys.ArrowUp)]
       = Some (reqs, {| props := props r; state := s' |})
     /\ activeIndex s' = ofZ b /\ hoverIndex s' = ofZ (-1))
  /\ (exists reqs s',
        run r [(env1, pressed Keys.ArrowUp); (env2, pressed Keys.ArrowDown)]
          = Some (reqs, {| props := props r; state := s' |})
        /\ activeIndex s' = ofZ b /\ hoverIndex s' = ofZ (-1)).
Proof.
  intros Hn Hpos Hbase Hb. split.
  - destruct (step_down env1 r n b Hn Hpos Hbase (proj1 Hb))
      as (reqs & s1 & E & Ha & Hh).
    pose proof (Z.mod_pos_bound (b + 1) n Hpos) as Hr.
    destruct (step_up env2 {| props := props r; state := s1 |} n
                ((b + 1) mod n) Hn Hpos
                (baseIndex_after_key s1 _ Ha Hh) (proj1 Hr))
      as (later & s' & E' & Ha' & Hh').
    cbn [run]. rewrite E. cbn [props] in E'. rewrite E'.
    eexists _, s'. split; [reflexivity|]. split; [|exact Hh'].
    rewrite Ha'. f_equal. rewrite Zminus_mod_idemp_l.
    replace (b + 1 - 1) with b by lia. apply Z.mod_small. exact Hb.
  - destruct (step_up env1 r n b Hn Hpos Hbase (proj1 Hb))
      as (reqs & s1 & E & Ha & Hh).
    pose proof (Z.mod_pos_bound (b - 1) n Hpos) as Hr.
    destruct (step_down env2 {| props := props r; state := s1 |} n
                ((b - 1) mod n) Hn Hpos
                (baseIndex_after_key s1 _ Ha Hh) (proj1 Hr))
      as (later & s' & E' & Ha' & Hh').
    cbn [run]. rewrite E. cbn [props] in E'. rewrite E'.
    eexists _, s'. split; [reflexivity|]. split; [|exact Hh'].
    rewrite Ha'. f_equal. rewrite Z.add_mod_idemp_l by lia.
    replace (b - 1 + 1) with b by lia. apply Z.mod_small. exact Hb.
Qed.

Lemma up_and_down_are_inverse_witness :
  let first := {| props := Demo.five;
                  state := {| hoverIndex := ofZ (-1); activeIndex := ofZ 0;
                              activeElement := Some 1%positive |} |} in
  (exists reqs s',
     run first [(Demo.env, pressed Keys.ArrowDown);
                (Demo.env, pressed Keys.ArrowUp)]
       = Some (reqs, {| props := Demo.five; state := s' |})
     /\ activeIndex s' = ofZ 0 /\ hoverIndex s' = ofZ (-1))
  /\ (exists reqs s',
        run first [(Demo.env, pressed Keys.ArrowUp);
                   (Demo.env, pressed Keys.ArrowDown)]
          = Some (reqs, {| props := Demo.five; state := s' |})
        /\ activeIndex s' = ofZ 0 /\ hoverIndex s' = ofZ (-1)).
Proof.
  intros first.
  exact (up_and_down_are_inverse 5 0 Demo.env Demo.env first
           eq_refl eq_refl eq_refl (conj (Z.le_refl 0) eq_refl)).
Defined.

(* ------------------------------------------------------------------ *)
(** ** Further properties: the pointer *)

Section IndexText.

Import Decimal.















End IndexText.

Lemma handleMove_shape (env : Env) (p : Props) (s : State) (e : MouseEvent) :
  handleMove env p s e = s
  \/ strict_eq (activeIndex (handleMove env p s e))
       (hoverIndex (handleMove env p s e)) = true.
Proof.
  unfold handleMove. destruct (hitElement env p e) as [el|]; [|auto].
  cbv zeta.
  destruct (isNaN (Number (getAttribute (document env) el
                             (listItemIndexAttribute p)))) eqn:Hnan;
    [auto|].
  cbn [orb]. destruct (strict_eq (hoverIndex s) _); [auto|].
  right. cbn [setActiveIndex setHoverIndex activeIndex hoverIndex].
  apply strict_eq_refl, Hnan.
Qed.

(** A pointer move with the renders it causes: no scroll is requested, and
    the indices are those the handler wrote. *)
Lemma step_move (env : Env) (r : Render) (e : MouseEvent) :
  exists s',
    step env r (MouseMove e) = Some ([], {| props := props r; state := s' |})
    /\ hoverIndex s' = hoverIndex (handleMove env (props r) (state r) e)
    /\ activeIndex s' = activeIndex (handleMove env (props r) (state r) e).
Proof.
  destruct (handleMove_shape env (props r) (state r) e) as [Hsame|Heq].
  - exists (state r). rewrite Hsame. split; [|auto].
    replace {| props := props r; state := state r |} with r
      by (destruct r; reflexivity).
    apply step_idle. cbn [dispatch]. rewrite Hsame. destruct r; reflexivity.
  - set (s1 := handleMove env (props r) (state r) e) in *.
    set (cur := {| props := props r; state := s1 |}).
    assert (Hp : props r = props cur) by reflexivity.
    destruct (unchanged_props r cur Hp) as [Hl _].
    assert (Hh := runEffects_hoverIndex env (Some r) cur).
    assert (Ha := runEffects_activeIndex env (Some r) cur).
    rewrite Hl in Ha. cbn [state cur] in Hh, Ha.
    exists (snd (runEffects env (Some r) cur)).
    split; [|auto].
    unfold step, renders. cbn [dispatch]. fold s1. fold cur.
    rewrite settle_two by exact Hp. cbv zeta. cbn [props cur].
    f_equal. f_equal.
    assert (R1 : fst (runEffects env (Some r) cur) = []).
    { rewrite runEffects_requests. cbn [state cur].
      rewrite (scrollEffect_same env s1 Heq). now destruct (_ || _). }
    assert (R2 : fst (runEffects env (Some cur)
                        {| props := props r;
                           state := snd (runEffects env (Some r) cur) |}) = []).
    { rewrite runEffects_requests. cbn [state].
      rewrite scrollEffect_same by (rewrite Hh, Ha; exact Heq).
      now destruct (_ || _). }
    rewrite R1, R2. now destruct (state_is _ _).
Qed.

(** X8.  A pointer move never requests a scroll, whatever the state, the
    target and the document: the item under the pointer is not scrolled
    to. *)
Theorem pointer_move_never_scrolls (env : Env) (r : Render) (e : MouseEvent) :
  exists r', step env r (MouseMove e) = Some ([], r') /\ props r' = props r.
Proof.
  destruct (step_move env r e) as (s' & E & _).
  exists {| props := props r; state := s' |}. split; [exact E | reflexivity].
Qed.

Lemma handleMove_again (env : Env) (p : Props) (s s' : State) (e : MouseEvent) :
  hoverIndex s' = hoverIndex (handleMove env p s e) ->
  handleMove env p s' e = s'.
Proof.
  unfold handleMove. destruct (hitElement env p e) as [el|]; [|reflexivity].
  cbv zeta.
  destruct (isNaN (Number (getAttribute (document env) el
                             (listItemIndexAttribute p)))) eqn:Hnan;
    [reflexivity|].
  cbn [orb].
  destruct (strict_eq (hoverIndex s) _) eqn:Hs; intros ->.
  - now rewrite Hs.
  - cbn [setActiveIndex setHoverIndex hoverIndex].
    now rewrite (strict_eq_refl _ Hnan).
Qed.

(** X9.  Moving the pointer again over the same target, in the same
    document, changes nothing: after the first move has come to rest, the
    same move causes no render and no scroll. *)
Theorem repeated_move_idle (env : Env) (r : Render) (e : MouseEvent) :
  exists reqs r',
    step env r (MouseMove e) = Some (reqs, r')
    /\ step env r' (MouseMove e) = Some ([], r').
Proof.
  destruct (step_move env r e) as (s' & E & Hh & _).
  exists [], {| props := props r; state := s' |}. split; [exact E|].
  apply step_idle. cbn [dispatch props state].
  now rewrite (handleMove_again env (props r) (state r) s' e Hh).
Qed.



(* ------------------------------------------------------------------ *)
(** ** Further properties: scrolling *)

(** X11.  A key press that moves [activeIndex] to another index, whose
    element is found and is not the active element, requests two scrolls
    when the container is attached: the first from the layout of the
    element that was active before the key, in the render where the index
    changed, the second from the layout of the new element, which becomes
    the active element. *)
Theorem key_scrolls_twice (env : Env) (r : Render) (e : KeyboardEvent)
  (container old new : HTMLElement) :
  ref_current env = Some container ->
  activeElement (state r) = Some old ->
  strict_eq (listLength (props r)) (ofZ 0) = false ->
  strict_eq (nextIndex (props r) (state r) (key e)) (ofZ (-1)) = false ->
  lt (nextIndex (props r) (state r) (key e)) (ofZ 0) = false ->
  object_is (activeIndex (state r))
    (nextIndex (props r) (state r) (key e)) = false ->
  getSelectedElement env (props r) (nextIndex (props r) (state r) (key e))
    = Some new ->
  new <> old ->
  step env r (KeyPress e)
    = Some ([requestFor env container old; requestFor env container new],
            {| props := props r;
               state := {| hoverIndex := ofZ (-1);
                           activeIndex := nextIndex (props r) (state r) (key e);
                           activeElement := Some new |} |}).
Proof.
  intros Hc Hold Hlen Hnext Hlt Hchg Hsel Hne.
  unfold step, renders. cbn [dispatch].
  rewrite (handleKeypress_moves _ _ e Hlen Hnext). cbn [snd].
  rewrite Hold. set (next := nextIndex (props r) (state r) (key e)) in *.
  rewrite settle_two by reflexivity. cbv zeta.
  assert (Hnew_old : Pos.eqb new old = false) by (apply Pos.eqb_neq, Hne).
  assert (Hold_new : Pos.eqb old new = false)
    by (apply Pos.eqb_neq; congruence).
  assert (Hscroll : forall elem,
             scrollEffect env {| hoverIndex := ofZ (-1); activeIndex := next;
                                 activeElement := Some elem |}
             = [requestFor env container elem]).
  { intros elem. unfold scrollEffect.
    cbn [activeElement activeIndex hoverIndex]. rewrite Hc, Hlt, Hnext.
    reflexivity. }
  assert (P1 : runEffects env (Some r)
                 {| props := props r;
                    state := {| hoverIndex := ofZ (-1); activeIndex := next;
                                activeElement := Some old |} |}
               = ([requestFor env container old],
                  {| hoverIndex := ofZ (-1); activeIndex := next;
                     activeElement := Some new |})).
  { unfold runEffects, changed. cbn [props state activeIndex hoverIndex
                                      activeElement].
    rewrite Hchg, object_is_refl, String.eqb_refl. cbn [negb orb].
    rewrite Hsel, Hscroll. reflexivity. }
  rewrite P1. cbn [fst snd props state].
  assert (P2 : runEffects env
                 (Some {| props := props r;
                          state := {| hoverIndex := ofZ (-1);
                                      activeIndex := next;
                                      activeElement := Some old |} |})
                 {| props := props r;
                    state := {| hoverIndex := ofZ (-1); activeIndex := next;
                                activeElement := Some new |} |}
               = ([requestFor env container new],
                  {| hoverIndex := ofZ (-1); activeIndex := next;
                     activeElement := Some new |})).
  { unfold runEffects, changed. cbn [props state activeIndex hoverIndex
                                      activeElement element_is].
    rewrite !object_is_refl, String.eqb_refl, Hold_new. cbn [negb orb].
    rewrite Hscroll. reflexivity. }
  rewrite P2. cbn [fst].
  unfold state_is. cbn [hoverIndex activeIndex activeElement element_is].
  rewrite Hnew_old, andb_false_r. reflexivity.
Qed.

Lemma key_scrolls_twice_witness :
  let r := {| props := Demo.five;
              state := {| hoverIndex := ofZ (-1); activeIndex := ofZ 0;
                          activeElement := Some 1%positive |} |} in
  step Demo.env r (pressed Keys.ArrowDown)
    = Some ([requestFor Demo.env Demo.ul 1%positive;
             requestFor Demo.env Demo.ul 2%positive],
            {| props := Demo.five;
               state := {| hoverIndex := ofZ (-1); activeIndex := ofZ 1;
                           activeElement := Some 2%positive |} |}).
Proof.
  intros r.
  apply (key_scrolls_twice Demo.env r
           {| key := Keys.ArrowDown; defaultPrevented := false |}
           Demo.ul 1%positive 2%positive);
    try reflexivity.
  discriminate.
Defined.

(** A property of the render and of the requests that every event keeps,
    with the renders it causes, holds along a sequence of events. *)
Lemma run_invariant (P : Render -> Prop) (Q : ScrollRequest -> Prop)
  (A : Env * Event -> Prop) :
  (forall env r ev, A (env, ev) -> P r ->
     exists reqs r', step env r ev = Some (reqs, r') /\ P r' /\ Forall Q reqs) ->
  forall evs r, Forall A evs -> P r ->
    exists reqs r', run r evs = Some (reqs, r') /\ P r' /\ Forall Q reqs.
Proof.
  intros Hstep. induction evs as [|[env ev] evs IH]; intros r Hall HP.
  - exists [], r. auto.
  - inversion Hall as [|x l Hev Hrest]; subst.
    destruct (Hstep env r ev Hev HP) as (reqs & r1 & E & HP1 & HQ1).
    destruct (IH r1 Hrest HP1) as (later & r' & E' & HP' & HQ').
    cbn [run]. rewrite E, E'. eexists _, r'.
    split; [reflexivity|]. split; [exact HP' | apply Forall_app; auto].
Qed.

Lemma settle_invariant_render (env : Env) (P : Render -> Prop)
  (Q : ScrollRequest -> Prop) :
  (forall prev cur, P cur ->
     P {| props := props cur; state := snd (runEffects env prev cur) |}
     /\ Forall Q (fst (runEffects env prev cur))) ->
  forall prev cur, P cur ->
    exists reqs r, settle renders env prev cur = Some (reqs, r)
                   /\ P r /\ Forall Q reqs.
Proof.
  intros Hpass.
  assert (H : forall fuel prev cur reqs r,
             P cur -> settle fuel env prev cur = Some (reqs, r) ->
             P r /\ Forall Q reqs).
  { induction fuel as [|fuel IH]; intros prev cur reqs r HP; [discriminate|].
    rewrite settle_unfold. destruct (Hpass prev cur HP) as [HP' HQ].
    destruct (runEffects env prev cur) as [reqs1 s1]; cbn [fst snd] in *.
    cbv zeta. destruct (state_is s1 (state cur)).
    - intros [= <- <-]. auto.
    - destruct (settle fuel env (Some cur) {| props := props cur; state := s1 |})
        as [[later r']|] eqn:E; [|discriminate].
      intros [= <- <-].
      destruct (IH (Some cur) {| props := props cur; state := s1 |}
                  later r' HP' E) as [HPr HQl].
      split; [exact HPr | apply Forall_app; auto]. }
  intros prev cur HP.
  destruct (settle_terminates env prev cur) as (reqs & s' & E & _).
  exists reqs, {| props := props cur; state := s' |}.
  split; [exact E | exact (H _ _ _ _ _ HP E)].
Qed.

Lemma no_requests (reqs : list ScrollRequest) :
  Forall (fun _ => False) reqs -> reqs = [].
Proof. destruct 1; [reflexivity | contradiction]. Qed.

(** The same for mounting followed by a sequence of events: [A] is what
    is asked of the documents, [B] of the events. *)
Lemma session_invariant (P : Render -> Prop) (Q : ScrollRequest -> Prop)
  (A : Env -> Prop) (B : Env * Event -> Prop) :
  (forall env prev cur, A env -> P cur ->
     exists reqs r,
       settle renders env prev cur = Some (reqs, r) /\ P r /\ Forall Q reqs) ->
  (forall env r ev, B (env, ev) -> P r -> P (dispatch env r ev)) ->
  forall env p evs,
    A env -> Forall (fun x => A (fst x) /\ B x) evs ->
    P {| props := p; state := initialState |} ->
    exists reqs r, session env p evs = Some (reqs, r) /\ P r /\ Forall Q reqs.
Proof.
  intros Hsettle Hdisp env p evs HA Hall HP0. unfold session, mount.
  destruct (Hsettle env None _ HA HP0) as (reqs0 & r0 & E0 & HP & HQ0).
  rewrite E0.
  destruct (run_invariant P Q (fun x => A (fst x) /\ B x)) with (evs := evs)
    (r := r0) as (reqs & r' & E & HP' & HQ); trivial.
  - intros env' r ev [HA' HB] HPr. unfold step.
    apply Hsettle; [exact HA' | apply Hdisp; assumption].
  - rewrite E. eexists _, r'. split; [reflexivity|].
    split; [exact HP' | apply Forall_app; auto].
Qed.

(** X12.  While no container is attached to the ref, no scroll is ever
    requested: not at mounting and not by any sequence of events, of
    whatever kind. *)
Theorem no_container_no_scroll (env : Env) (p : Props)
  (evs : list (Env * Event)) :
  ref_current env = None ->
  Forall (fun x => ref_current (fst x) = None) evs ->
  exists r, session env p evs = Some ([], r).
Proof.
  intros Henv Hall.
  destruct (session_invariant (fun _ => True) (fun _ => False)
              (fun env' => ref_current env' = None) (fun _ => True))
    with (env := env) (p := p) (evs := evs) as (reqs & r & E & _ & HQ);
    trivial.
  - intros env' prev cur Href _.
    apply settle_invariant_render; [|exact I].
    intros prev' cur' _. split; [exact I|].
    rewrite runEffects_requests. unfold scrollEffect. rewrite Href.
    destruct (_ || _); constructor.
  - eapply Forall_impl; [|exact Hall]. cbn beta. auto.
  - exists r. rewrite E, (no_requests reqs HQ). reflexivity.
Qed.

Lemma no_container_no_scroll_witness :
  let detached := {| document := Demo.demoDocument; ref_current := None |} in
  exists r,
    session detached Demo.five
      [(detached, pressed Keys.ArrowDown); (detached, pressed Keys.End_)]
    = Some ([], r).
Proof.
  intros detached.
  apply (no_container_no_scroll detached Demo.five); [reflexivity|].
  repeat constructor.
Defined.

(** X13.  With an empty index attribute name no element is ever resolved
    and no scroll is ever requested: at mounting and after every sequence
    of key presses, pointer leaves and calls of [setActiveIndex],
    [activeElement] is none and the list of scroll requests is empty. *)
Theorem empty_attribute_never_resolves (env : Env) (p : Props)
  (evs : list (Env * Event)) :
  listItemIndexAttribute p = EmptyString ->
  Forall withoutPointerMove evs ->
  exists s',
    session env p evs = Some ([], {| props := p; state := s' |})
    /\ activeElement s' = None.
Proof.
  intros Hattr Hall.
  assert (Hsel : forall env' i, getSelectedElement env' p i = None)
    by (intros env' i; unfold getSelectedElement; now rewrite Hattr).
  destruct (session_invariant
              (fun r => props r = p /\ activeElement (state r) = None)
              (fun _ => False) (fun _ => True) withoutPointerMove)
    with (env := env) (p := p) (evs := evs)
    as (reqs & r & E & [Hp He] & HQ); auto.
  - intros env' prev cur _ HP. apply settle_invariant_render; [|exact HP].
    intros prev' cur' [Hpc Hec]. cbn [props state]. split.
    + split; [exact Hpc|].
      rewrite runEffects_activeElement, Hpc, Hsel, Hec.
      now destruct (_ || _).
    + rewrite runEffects_requests. unfold scrollEffect. rewrite Hec.
      destruct (_ || _); [|constructor].
      destruct (ref_current env'); constructor.
  - intros env' r ev Hev [Hp He].
    unfold withoutPointerMove in Hev. cbn [snd] in Hev.
    destruct ev; try contradiction; cbn [dispatch props state];
      (split; [exact Hp|]).
    + unfold handleKeypress.
      repeat match goal with
             | |- context [if ?b then _ else _] => destruct b
             end; exact He.
    + exact He.
    + exact He.
  - eapply Forall_impl; [|exact Hall]. cbn beta. auto.
  - rewrite E, (no_requests reqs HQ). destruct r as [p' s']. cbn in Hp, He.
    subst p'. exists s'. auto.
Qed.

Lemma empty_attribute_never_resolves_witness :
  let unnamed := {| listLength := ofZ 5; listItemIndexAttribute := EmptyString |} in
  exists s',
    session Demo.env unnamed
      [(Demo.env, pressed Keys.ArrowDown); (Demo.env, SetActiveIndex (ofZ 3));
       (Demo.env, MouseLeave)]
    = Some ([], {| props := unnamed; state := s' |})
    /\ activeElement s' = None.
Proof.
  intros unnamed.
  apply (empty_attribute_never_resolves Demo.env unnamed); [reflexivity|].
  repeat constructor.
Defined.

(* ------------------------------------------------------------------ *)
(** ** Further properties: what writes the indices *)

(** X14.  [hoverIndex] is never [NaN]: after mounting and after every
    sequence of events of whatever kind, in whatever documents, the state
    is there and its [hoverIndex] is a number, also when an attribute text
    is no number and when [setActiveIndex] was given [NaN]. *)
Theorem hoverIndex_never_NaN (env : Env) (p : Props)
  (evs : list (Env * Event)) :
  exists reqs r,
    session env p evs = Some (reqs, r)
    /\ isNaN (hoverIndex (state r)) = false.
Proof.
  destruct (session_invariant (fun r => isNaN (hoverIndex (state r)) = false)
              (fun _ => True) (fun _ => True) (fun _ => True))
    with (env := env) (p := p) (evs := evs) as (reqs & r & E & HP & _);
    trivial.
  - intros env' prev cur _ HP.
    destruct (settle_terminates env' prev cur) as (reqs & s' & E & Hh & _).
    exists reqs, {| props := props cur; state := s' |}.
    split; [exact E|]. split; [|apply Forall_forall; trivial].
    cbn [state]. rewrite Hh. exact HP.
  - intros env' r ev _ HP.
    destruct ev; cbn [dispatch state]; try exact HP.
    + unfold handleKeypress.
      repeat match goal with
             | |- context [if ?b then _ else _] => destruct b
             end; cbn; try exact HP; reflexivity.
    + unfold handleMove. destruct (hitElement env' (props r) e); [|exact HP].
      cbv zeta.
      destruct (isNaN (Number _)) eqn:Hnan; [exact HP|]. cbn [orb].
      destruct (strict_eq _ _); [exact HP | exact Hnan].
    + reflexivity.
  - apply Forall_forall. auto.
  - exists reqs, r. auto.
Qed.

(** X15.  The effects never write [hoverIndex], and write [activeIndex]
    only when the length changed: after every event, with the renders it
    causes, [hoverIndex] is what the handler left, and [activeIndex] is
    what the handler left if the length is the same and 0 if it is not.
    So an index given to [setActiveIndex] stays, unclamped, and a change of
    length leaves [hoverIndex] alone. *)
Theorem effects_keep_indices (env : Env) (r : Render) (ev : Event) :
  exists reqs s',
    step env r ev
      = Some (reqs, {| props := props (dispatch env r ev); state := s' |})
    /\ hoverIndex s' = hoverIndex (state (dispatch env r ev))
    /\ activeIndex s' =
         if object_is (listLength (props r))
              (listLength (props (dispatch env r ev)))
         then activeIndex (state (dispatch env r ev))
         else ofZ 0.
Proof.
  destruct (settle_terminates env (Some r) (dispatch env r ev))
    as (reqs & s' & E & Hh & Ha).
  exists reqs, s'. split; [exact E|]. split; [exact Hh|].
  rewrite Ha. unfold changed. now destruct (object_is _ _).
Qed.



(* ------------------------------------------------------------------ *)
(** ** Further properties: the active element *)

(** The render cycle after an event that leaves the arguments alone: the
    state is that of the first render's effects. *)
Lemma step_same_props (env : Env) (r : Render) (ev : Event) :
  props (dispatch env r ev) = props r ->
  exists reqs,
    step env r ev
      = Some (reqs,
              {| props := props r;
                 state := snd (runEffects env (Some r) (dispatch env r ev)) |}).
Proof.
  intros Ep. unfold step, renders.
  rewrite settle_two by (symmetry; exact Ep). cbv zeta. rewrite Ep.
  eexists. reflexivity.
Qed.

(** X17.  When an event changes [activeIndex] and leaves the arguments
    alone (a key press, a pointer move, a call of [setActiveIndex]), and
    the document holds an element for the new index, the state comes to
    rest with that element as [activeElement]. *)
Theorem activeElement_follows_index (env : Env) (r : Render) (ev : Event)
  (elem : HTMLElement) :
  props (dispatch env r ev) = props r ->
  object_is (activeIndex (state r))
    (activeIndex (state (dispatch env r ev))) = false ->
  getSelectedElement env (props r) (activeIndex (state (dispatch env r ev)))
    = Some elem ->
  exists reqs s',
    step env r ev = Some (reqs, {| props := props r; state := s' |})
    /\ activeIndex s' = activeIndex (state (dispatch env r ev))
    /\ activeElement s' = Some elem.
Proof.
  intros Ep Hchg Hsel.
  destruct (step_same_props env r ev Ep) as (reqs & E).
  exists reqs, (snd (runEffects env (Some r) (dispatch env r ev))).
  split; [exact E|]. split.
  - rewrite runEffects_activeIndex.
    destruct (unchanged_props r (dispatch env r ev)) as [-> _];
      [symmetry; exact Ep | reflexivity].
  - rewrite runEffects_activeElement. unfold changed at 1.
    rewrite Hchg, Ep, Hsel. reflexivity.
Qed.

Lemma activeElement_follows_index_witness :
  let r := {| props := Demo.five;
              state := {| hoverIndex := ofZ (-1); activeIndex := ofZ 0;
                          activeElement := Some 1%positive |} |} in
  exists reqs s',
    step Demo.env r (MouseMove {| target := Some 6%positive |})
      = Some (reqs, {| props := Demo.five; state := s' |})
    /\ activeIndex s' = ofZ 2
    /\ activeElement s' = Some 3%positive.
Proof.
  intros r.
  exact (activeElement_follows_index Demo.env r
           (MouseMove {| target := Some 6%positive |}) 3%positive
           eq_refl eq_refl eq_refl).
Defined.



(** X19.  After a change of length, when [activeIndex] was an integer and
    the document holds an element for index 0, the state comes to rest
    with [activeIndex] 0 and that element as [activeElement]; [hoverIndex]
    is as before. *)
Theorem length_change_selects_first (env : Env) (r : Render) (p' : Props)
  (a : Z) (first : HTMLElement) :
  object_is (listLength (props r)) (listLength p') = false ->
  activeIndex (state r) = ofZ a ->
  getSelectedElement env p' (ofZ 0) = Some first ->
  exists reqs s',
    step env r (NewProps p') = Some (reqs, {| props := p'; state := s' |})
    /\ activeIndex s' = ofZ 0
    /\ activeElement s' = Some first
    /\ hoverIndex s' = hoverIndex (state r).
Proof.
  intros Hchg Hint Hsel. unfold step, renders. cbn [dispatch].
  set (cur := {| props := p'; state := state r |}).
  rewrite settle_unfold.
  assert (Hh := runEffects_hoverIndex env (Some r) cur).
  assert (Ha := runEffects_activeIndex env (Some r) cur).
  assert (He := runEffects_activeElement env (Some r) cur).
  unfold changed in Ha, He. cbn [props state cur] in Hh, Ha, He.
  rewrite Hchg in Ha, He. cbn [negb orb] in Ha, He.
  rewrite orb_true_r in He. cbn [orb] in He. rewrite Hint in He.
  destruct (runEffects env (Some r) cur) as [reqs s1]. cbn [snd] in *.
  cbv zeta. cbn [props cur].
  destruct (Z.eq_dec a 0) as [->|Hne].
  - rewrite Hsel in He.
    destruct (state_is s1 (state cur)).
    + exists reqs, s1. auto.
    + rewrite settle_two by reflexivity. cbv zeta. cbn [props].
      set (next := {| props := p'; state := s1 |}).
      eexists _, (snd (runEffects env (Some cur) next)).
      split; [reflexivity|].
      destruct (unchanged_props cur next eq_refl) as [Hl Hg].
      rewrite runEffects_activeIndex, runEffects_activeElement,
        runEffects_hoverIndex, Hl, Hg.
      unfold changed. cbn [state cur next]. rewrite Hint, Ha.
      change (object_is (ofZ 0) (ofZ 0)) with true. cbn [negb orb]. auto.
  - assert (Hs : state_is s1 (state cur) = false).
    { unfold state_is. cbn [state cur]. rewrite Ha, Hint.
      unfold object_is at 2. rewrite strict_eq_ofZ.
      replace (0 =? a) with false by (symmetry; apply Z.eqb_neq; congruence).
      now rewrite andb_false_r. }
    rewrite Hs, settle_two by reflexivity. cbv zeta. cbn [props].
    set (next := {| props := p'; state := s1 |}).
    eexists _, (snd (runEffects env (Some cur) next)).
    split; [reflexivity|].
    destruct (unchanged_props cur next eq_refl) as [Hl Hg].
    rewrite runEffects_activeIndex, runEffects_activeElement,
      runEffects_hoverIndex, Hl, Hg.
    unfold changed. cbn [state cur next props]. rewrite Hint, Ha.
    assert (Hd : object_is (ofZ a) (ofZ 0) = false).
    { unfold object_is. rewrite strict_eq_ofZ. apply Z.eqb_neq, Hne. }
    rewrite Hd, Hsel. cbn [negb orb]. auto.
Qed.

Lemma length_change_selects_first_witness :
  let r := {| props := Demo.five;
              state := {| hoverIndex := ofZ (-1); activeIndex := ofZ 3;
                          activeElement := Some 4%positive |} |} in
  let shorter := {| listLength := ofZ 2;
                    listItemIndexAttribute := "data-index" |} in
  exists reqs s',
    step Demo.env r (NewProps shorter)
      = Some (reqs, {| props := shorter; state := s' |})
    /\ activeIndex s' = ofZ 0
    /\ activeElement s' = Some 1%positive
    /\ hoverIndex s' = ofZ (-1).
Proof.
  intros r shorter.
  exact (length_change_selects_first Demo.env r shorter 3 1%positive
           eq_refl eq_refl eq_refl).
Defined.
